(** * ELEC-H409 UART interface: the two Python scripts, embedded and verified

    [src/uart_interface.py] is the interactive session: it picks a serial
    port and a baud rate, cuts the typed text into 16-byte chunks, writes
    each chunk to the port, reads 16 bytes back and prints the text it
    rebuilds.  [src/python/uart_interface_loopback.py] is the self-test: it
    sends one fixed 16-byte payload and compares what comes back.

    Both scripts are embedded as Rocq functions with explicit state passing:
    the lines waiting on standard input are an argument that shrinks, and a
    [world] records how many times the ports were enumerated and the trace
    of observable events (console output, serial opens, writes, reads). *)

From Stdlib Require Import ZArith String Ascii Bool Lia DecimalString List.
From Stdlib Require Import DecimalZ DecimalPos FinFun.
Import ListNotations.
Open Scope list_scope.
Open Scope Z_scope.

(** ** Python values *)

(** A [bytes] object: its byte values, each in [0, 255]. *)
Definition py_bytes := list Z.

(** A [str] object: its Unicode code points. *)
Definition py_str := list Z.

(** A program literal, character by character. *)
Definition lit (s : string) : py_str :=
  map (fun c => Z.of_N (N_of_ascii c)) (list_ascii_of_string s).

(** The characters a Rocq string literal cannot hold directly. *)
Definition dquote : Z := 34.
Definition tab : Z := 9.
Definition newline : Z := 10.

(** The exceptions the two scripts can meet. *)
Inductive exn : Type :=
| ValueError
| IndexError
| EOFError
| EnvironmentError
| UnboundLocalError
| UnicodeDecodeError
| UnicodeEncodeError
| SystemExit.

Inductive result (A : Type) : Type :=
| Ok (a : A)
| Raise (e : exn).

Arguments Ok {A} a.
Arguments Raise {A} e.

Definition len {A : Type} (l : list A) : Z := Z.of_nat (length l).

(** ** Built-ins the scripts use *)

Module Py.

(** [range(start, stop, step)]: a zero step is a [ValueError]; the number of
    items is the one CPython computes. *)
Definition range (start stop step : Z) : result (list Z) :=
  if step =? 0 then Raise ValueError
  else
    let n :=
      if 0 <? step
      then (if start <? stop then (stop - start - 1) / step + 1 else 0)
      else (if stop <? start then (start - stop - 1) / (- step) + 1 else 0) in
    Ok (map (fun k => start + Z.of_nat k * step) (seq 0 (Z.to_nat n))).

(** [range(n)] and [range(start, stop)], which never raise. *)
Definition range2 (start stop : Z) : list Z :=
  map (fun k => start + Z.of_nat k) (seq 0 (Z.to_nat (stop - start))).

Definition range1 (n : Z) : list Z := range2 0 n.

(** A slice bound, as [seq[lo:hi]] adjusts it: a negative bound counts from
    the end, and every bound is clipped to the sequence. *)
Definition clip (n k : Z) : Z :=
  if k <? 0 then Z.max 0 (k + n) else Z.min k n.

(** [seq[lo:hi]] *)
Definition slice {A : Type} (l : list A) (lo hi : Z) : list A :=
  let lo' := clip (len l) lo in
  let hi' := clip (len l) hi in
  firstn (Z.to_nat (hi' - lo')) (skipn (Z.to_nat lo') l).

(** [seq[:n]] *)
Definition slice_to {A : Type} (l : list A) (n : Z) : list A :=
  slice l 0 n.

(** [seq[i]]: indices [-len .. -1] count from the end; anything outside
    [-len .. len-1] is an [IndexError]. *)
Definition index {A : Type} (l : list A) (i : Z) : result A :=
  let j := if i <? 0 then i + len l else i in
  if (0 <=? j) && (j <? len l)
  then match nth_error l (Z.to_nat j) with
       | Some x => Ok x
       | None => Raise IndexError
       end
  else Raise IndexError.

(** [enumerate(seq)] *)
Definition enumerate {A : Type} (l : list A) : list (Z * A) :=
  combine (map Z.of_nat (seq 0 (length l))) l.

(** [str(n)] for an integer, as an f-string or [%s] renders it. *)
Definition str_of_int (n : Z) : py_str :=
  lit (NilZero.string_of_int (Z.to_int n)).

(** [a == b] on strings *)
Definition str_eq (a b : py_str) : bool :=
  if list_eq_dec Z.eq_dec a b then true else false.

(** [s.startswith(prefix)] *)
Fixpoint startswith (s prefix : py_str) : bool :=
  match prefix, s with
  | [], _ => true
  | p :: prefix', c :: s' => (p =? c) && startswith s' prefix'
  | _ :: _, [] => false
  end.

(** [int(s)] on a string, in base ten, as CPython 3.11 computes it.  The
    string is first brought to ASCII: a character below 127 stays, white
    space beyond ASCII becomes a space, a decimal digit of any script
    becomes the ASCII digit of its value, and the text ends in a question
    mark at the first character that is none of these.  The ASCII text is
    then read as white space, an optional sign, digits with single
    underscores between them, white space; anything else is a
    [ValueError], and so is a number of more than 4300 digits, the default
    of [sys.int_max_str_digits]. *)

(** The decimal digits of Unicode 14.0 come in runs of ten, zero to nine:
    the zeros of the sixty-six runs. *)
Definition decimal_zeros : list Z :=
  [48; 1632; 1776; 1984; 2406; 2534; 2662; 2790; 2918; 3046; 3174; 3302;
   3430; 3558; 3664; 3792; 3872; 4160; 4240; 6112; 6160; 6470; 6608; 6784;
   6800; 6992; 7088; 7232; 7248; 42528; 43216; 43264; 43472; 43504; 43600;
   44016; 65296; 66720; 68912; 69734; 69872; 69942; 70096; 70384; 70736;
   70864; 71248; 71360; 71472; 71904; 72016; 72784; 73040; 73120; 92768;
   92864; 93008; 120782; 120792; 120802; 120812; 120822; 123200; 123632;
   125264; 130032].

(** [Py_UNICODE_TODECIMAL] *)
Definition decimal (c : Z) : option Z :=
  match find (fun z => (z <=? c) && (c <=? z + 9)) decimal_zeros with
  | Some z => Some (c - z)
  | None => None
  end.

(** [Py_UNICODE_ISSPACE] beyond ASCII *)
Definition is_unicode_space (c : Z) : bool :=
  (c =? 133) || (c =? 160) || (c =? 5760)
  || ((8192 <=? c) && (c <=? 8202))
  || (c =? 8232) || (c =? 8233) || (c =? 8239) || (c =? 8287)
  || (c =? 12288).

(** [_PyUnicode_TransformDecimalAndSpaceToASCII] *)
Fixpoint to_ascii (s : py_str) : py_str :=
  match s with
  | [] => []
  | c :: r =>
      if c <? 127 then c :: to_ascii r
      else if is_unicode_space c then 32 :: to_ascii r
      else
        match decimal c with
        | Some d => 48 + d :: to_ascii r
        | None => [63]
        end
  end.

(** [Py_ISSPACE]: the white space of ASCII; the separators 28 to 31, which
    [str.strip] removes, are not part of it. *)
Definition is_ascii_space (c : Z) : bool :=
  ((9 <=? c) && (c <=? 13)) || (c =? 32).

Definition is_digit (c : Z) : bool := (48 <=? c) && (c <=? 57).

Fixpoint skip_spaces (s : py_str) : py_str :=
  match s with
  | c :: r => if is_ascii_space c then skip_spaces r else s
  | [] => []
  end.

(** The scan over digits and underscores: the value so far, the number of
    digits so far, whether the last character was an underscore.  It stops
    at the first character that is neither and returns what is left; two
    underscores in a row or an underscore at the end have no value. *)
Fixpoint scan_digits (acc digits : Z) (underscore : bool) (s : py_str)
  : option (Z * Z * py_str) :=
  match s with
  | c :: r =>
      if is_digit c then scan_digits (10 * acc + (c - 48)) (digits + 1) false r
      else if c =? 95 then
        if underscore then None else scan_digits acc digits true r
      else if underscore then None else Some (acc, digits, s)
  | [] => if underscore then None else Some (acc, digits, [])
  end.

(** [PyLong_FromString] in base ten *)
Definition int_of_ascii (s : py_str) : result Z :=
  let s := skip_spaces s in
  let '(sign, s) :=
    match s with
    | c :: r =>
        if c =? 43 then (1, r) else if c =? 45 then (-1, r) else (1, s)
    | [] => (1, s)
    end in
  if match s with c :: _ => c =? 95 | [] => false end then Raise ValueError
  else
    match scan_digits 0 0 false s with
    | None => Raise ValueError
    | Some (n, digits, rest) =>
        if 4300 <? digits then Raise ValueError
        else if digits =? 0 then Raise ValueError
        else
          match skip_spaces rest with
          | [] => Ok (sign * n)
          | _ :: _ => Raise ValueError
          end
    end.

Definition int (s : py_str) : result Z := int_of_ascii (to_ascii s).

(** One lower-case hexadecimal digit. *)
Definition hexdigit (n : Z) : Z := if n <? 10 then 48 + n else 87 + n.

(** [b.hex()]: two lower-case digits per byte. *)
Definition hex (b : py_bytes) : py_str :=
  flat_map (fun x => [hexdigit (x / 16); hexdigit (x mod 16)]) b.

(** The value of a hexadecimal digit of either case. *)
Definition hexval (c : Z) : option Z :=
  if (48 <=? c) && (c <=? 57) then Some (c - 48)
  else if (97 <=? c) && (c <=? 102) then Some (c - 87)
  else if (65 <=? c) && (c <=? 70) then Some (c - 55)
  else None.

(** The white space [bytes.fromhex] skips between two bytes. *)
Definition is_hex_space (c : Z) : bool :=
  ((9 <=? c) && (c <=? 13)) || (c =? 32).

(** [bytes.fromhex(s)]: two digits per byte, ASCII white space skipped
    between bytes but not inside one (before Python 3.7 only the space
    character was skipped); anything else is a [ValueError]. *)
Fixpoint fromhex (s : py_str) : result py_bytes :=
  match s with
  | [] => Ok []
  | c :: r =>
      if is_hex_space c then fromhex r
      else
        match hexval c with
        | None => Raise ValueError
        | Some top =>
            match r with
            | [] => Raise ValueError
            | d :: r' =>
                match hexval d with
                | None => Raise ValueError
                | Some bot =>
                    match fromhex r' with
                    | Ok bs => Ok (16 * top + bot :: bs)
                    | Raise e => Raise e
                    end
                end
            end
        end
  end.

Definition is_cont (b : Z) : bool := (128 <=? b) && (b <=? 191).

Definition in_range (lo hi b : Z) : bool := (lo <=? b) && (b <=? hi).

(** [b.decode()]: strict UTF-8.  Overlong forms, surrogates, code points
    above U+10FFFF and truncated sequences are a [UnicodeDecodeError]. *)
Fixpoint decode (b : py_bytes) : result py_str :=
  let continue (c : Z) (rest : result py_str) :=
    match rest with
    | Ok s => Ok (c :: s)
    | Raise e => Raise e
    end in
  match b with
  | [] => Ok []
  | b0 :: r0 =>
      if in_range 0 127 b0 then continue b0 (decode r0)
      else if in_range 194 223 b0 then
        match r0 with
        | b1 :: r1 =>
            if is_cont b1
            then continue ((b0 - 192) * 64 + (b1 - 128)) (decode r1)
            else Raise UnicodeDecodeError
        | _ => Raise UnicodeDecodeError
        end
      else if in_range 224 239 b0 then
        match r0 with
        | b1 :: b2 :: r2 =>
            if (if b0 =? 224 then in_range 160 191 b1
                else if b0 =? 237 then in_range 128 159 b1
                else is_cont b1) && is_cont b2
            then continue ((b0 - 224) * 4096 + (b1 - 128) * 64 + (b2 - 128))
                          (decode r2)
            else Raise UnicodeDecodeError
        | _ => Raise UnicodeDecodeError
        end
      else if in_range 240 244 b0 then
        match r0 with
        | b1 :: b2 :: b3 :: r3 =>
            if (if b0 =? 240 then in_range 144 191 b1
                else if b0 =? 244 then in_range 128 143 b1
                else is_cont b1) && is_cont b2 && is_cont b3
            then continue ((b0 - 240) * 262144 + (b1 - 128) * 4096
                           + (b2 - 128) * 64 + (b3 - 128))
                          (decode r3)
            else Raise UnicodeDecodeError
        | _ => Raise UnicodeDecodeError
        end
      else Raise UnicodeDecodeError
  end.

(** The UTF-8 form of one code point; a surrogate or a value outside
    Unicode has none. *)
Definition encode_char (c : Z) : option py_bytes :=
  if in_range 0 127 c then Some [c]
  else if in_range 128 2047 c then Some [192 + c / 64; 128 + c mod 64]
  else if in_range 55296 57343 c then None
  else if in_range 2048 65535 c then
    Some [224 + c / 4096; 128 + (c / 64) mod 64; 128 + c mod 64]
  else if in_range 65536 1114111 c then
    Some [240 + c / 262144; 128 + (c / 4096) mod 64;
          128 + (c / 64) mod 64; 128 + c mod 64]
  else None.

(** [s.encode()]: UTF-8; a lone surrogate is a [UnicodeEncodeError]. *)
Fixpoint encode (s : py_str) : result py_bytes :=
  match s with
  | [] => Ok []
  | c :: s' =>
      match encode_char c, encode s' with
      | Some bs, Ok rest => Ok (bs ++ rest)
      | None, _ => Raise UnicodeEncodeError
      | _, Raise e => Raise e
      end
  end.

End Py.

(** ** The world the scripts run in *)

(** What [ser.write] is handed: indexing a [bytes] object gives an [int],
    a [bytes] literal or slice gives [bytes]. *)
Inductive pyval : Type :=
| PyInt (n : Z)
| PyBytes (b : py_bytes).

(** Observable events, oldest first in a trace. *)
Inductive event : Type :=
| Stdout (text : py_str)                       (* characters printed *)
| Prompt (text : py_str)                       (* the prompt of [input] *)
| Stdin (line : py_str)                        (* the line [input] returned *)
| Open (port : py_str) (baudrate : option Z)   (* [serial.Serial(...)] *)
| OpenFailed (port : py_str)                   (* it raised on opening *)
| Close (port : py_str)
| Sleep (ms : Z)                               (* [time.sleep], in ms *)
| Write (data : pyval)                         (* [ser.write(data)] *)
| Read (size : Z) (data : py_bytes).           (* [ser.read(size)] *)

(** The machine at one enumeration: its platform name, what [glob.glob]
    finds, and which device paths can be opened. *)
Record system : Type := {
  platform : py_str;
  glob : py_str -> list py_str;
  openable : py_str -> bool
}.

(** What the scripts do not control: the machine as the n-th enumeration
    finds it, and the bytes the device returns to a read, given all that
    happened before.  A read blocks until the device has answered; a device
    that never answers, and a chosen port that no longer opens, are not
    modelled. *)
Record env : Type := {
  system_at : nat -> system;
  device : list event -> py_bytes
}.

Record world : Type := {
  enum_calls : nat;
  trace : list event
}.

(** The lines still waiting on standard input.  [input(prompt)] shows the
    prompt and takes the next line; when none is left it raises
    [EOFError].  Every loop of the scripts reads one line per pass, so the
    loops below are recursive on the lines and spell this out. *)
Definition console := list py_str.

Definition start : world := {| enum_calls := 0; trace := [] |}.

Definition emit (e : event) (w : world) : world :=
  {| enum_calls := enum_calls w; trace := trace w ++ [e] |}.

Definition emits (es : list event) (w : world) : world :=
  {| enum_calls := enum_calls w; trace := trace w ++ es |}.

(** [print(s)] and [print(s, end=e)] *)
Definition print_end (s e : py_str) (w : world) : world :=
  emit (Stdout (s ++ e)) w.

Definition print (s : py_str) (w : world) : world :=
  print_end s [newline] w.

(** A [for] loop over [items], whose body only acts on the world.  The
    result also says what the loop variable is bound to afterwards: the
    last item, or nothing when the loop never ran. *)
Fixpoint for_each {A : Type} (items : list A) (body : A -> world -> world)
  (last : option A) (w : world) : option A * world :=
  match items with
  | [] => (last, w)
  | x :: rest => for_each rest body (Some x) (body x w)
  end.

Definition is_serial (e : event) : bool :=
  match e with
  | Open _ _ | OpenFailed _ | Close _ | Sleep _ | Write _ | Read _ _ => true
  | _ => false
  end.

(** The arguments of the write calls of a trace, in order. *)
Fixpoint writes (t : list event) : list pyval :=
  match t with
  | [] => []
  | Write v :: t' => v :: writes t'
  | _ :: t' => writes t'
  end.

(** pyserial's [serialutil.to_bytes], which [Serial.write] applies to its
    argument before transmitting (pyserial 3.5): a [bytes] object is sent as
    it is; an [int] n falls through to [bytes(bytearray(n))], which is n
    zero bytes.  The integers written here are byte values, never
    negative. *)
Definition to_bytes (v : pyval) : py_bytes :=
  match v with
  | PyBytes b => b
  | PyInt n => repeat 0 (Z.to_nat n)
  end.

(** The bytes a trace puts on the wire. *)
Definition wire (t : list event) : py_bytes :=
  concat (map to_bytes (writes t)).

(** ** [src/uart_interface.py]: the interactive session *)

Module UartInterface.

Definition TITLE : py_str := lit "
  _____ _     _____ ____      _   _       _  _    ___   ___  
 | ____| |   | ____/ ___|    | | | |     | || |  / _ \ / _ \ 
 |  _| | |   |  _|| |   _____| |_| |_____| || |_| | | | (_) |
 | |___| |___| |__| |__|_____|  _  |_____|__   _| |_| |\__, |
 |_____|_____|_____\____|    |_| |_|        |_|  \___/   /_/
           _   ___ ___   ___          _        _   
          /_\ | __/ __| | _ \_ _ ___ (_)___ __| |_ 
         / _ \| _|\__ \ |  _/ '_/ _ \| / -_) _|  _|
        /_/ \_\___|___/ |_| |_| \___// \___\__|\__|
                                   |__/           
".

(** The candidate device paths of a platform (the first half of
    [serial_ports]). *)
Definition candidates (sys : system) : result (list py_str) :=
  if Py.startswith (platform sys) (lit "win") then
    Ok (map (fun i => lit "COM" ++ Py.str_of_int (i + 1)) (Py.range1 256))
  else if Py.startswith (platform sys) (lit "linux")
          || Py.startswith (platform sys) (lit "cygwin") then
    Ok (glob sys (lit "/dev/tty[A-Za-z]*"))
  else if Py.startswith (platform sys) (lit "darwin") then
    Ok (glob sys (lit "/dev/tty.*"))
  else Raise EnvironmentError.

(** One pass of the probing loop: open the port and close it again; a port
    that does not open is left out. *)
Definition probe (sys : system) (acc : list py_str * list event)
  (port : py_str) : list py_str * list event :=
  if openable sys port
  then (fst acc ++ [port], snd acc ++ [Open port None; Close port])
  else (fst acc, snd acc ++ [OpenFailed port]).

(** [serial_ports()] on a given machine: the ports found and the events of
    the probing. *)
Definition serial_ports (sys : system) : result (list py_str) * list event :=
  match candidates sys with
  | Raise e => (Raise e, [])
  | Ok ports =>
      let '(found, evs) := fold_left (probe sys) ports ([], []) in
      (Ok found, evs)
  end.

(** A call of [serial_ports()]: it sees the machine as it is at this
    enumeration. *)
Definition call_serial_ports (E : env) (w : world)
  : result (list py_str) * world :=
  let '(r, evs) := serial_ports (system_at E (enum_calls w)) in
  (r, {| enum_calls := S (enum_calls w); trace := trace w ++ evs |}).

Definition retry_prompt : py_str :=
  lit "No serial port available. Make sure to connect to device "
  ++ lit "then press enter to try again".

(** The first loop of [serial_port_menu]: while no port is available, wait
    for the operator and enumerate again. *)
Fixpoint wait_for_ports (E : env) (available_ports : list py_str)
  (lines : console) (w : world) {struct lines}
  : result (list py_str) * console * world :=
  if len available_ports =? 0 then
    match lines with
    | [] => (Raise EOFError, [], emit (Prompt retry_prompt) w)
    | line :: rest =>
        let w := emit (Stdin line) (emit (Prompt retry_prompt) w) in
        match call_serial_ports E w with
        | (Ok ports, w) => wait_for_ports E ports rest w
        | (Raise e, w) => (Raise e, rest, w)
        end
    end
  else (Ok available_ports, lines, w).

(** The lines of the menu, one per port. *)
Definition print_ports (available_ports : list py_str) (w : world) : world :=
  snd (for_each (Py.enumerate available_ports)
         (fun '(i, port) =>
            print (lit "    (" ++ Py.str_of_int i ++ lit ") " ++ port))
         None w).

(** The second loop of [serial_port_menu]: show the menu and read an index
    until one selects a port. *)
Fixpoint menu_loop (available_ports : list py_str) (lines : console)
  (w : world) {struct lines} : result py_str * console * world :=
  let w := print (lit "Choose a serial port:") w in
  let w := print_ports available_ports w in
  match lines with
  | [] => (Raise EOFError, [], emit (Prompt []) w)
  | line :: rest =>
      let w := emit (Stdin line) (emit (Prompt []) w) in
      match Py.int line with
      | Raise ValueError =>
          menu_loop available_ports rest
            (print (lit "Wrong reponse type, try again !") w)
      | Raise e => (Raise e, rest, w)
      | Ok resp =>
          match Py.index available_ports resp with
          | Ok port => (Ok port, rest, w)
          | Raise IndexError =>
              menu_loop available_ports rest
                (print (Py.str_of_int resp
                        ++ lit " is out of range, try again !") w)
          | Raise e => (Raise e, rest, w)
          end
      end
  end.

Definition serial_port_menu (E : env) (lines : console) (w : world)
  : result py_str * console * world :=
  match call_serial_ports E w with
  | (Raise e, w) => (Raise e, lines, w)
  | (Ok available_ports, w) =>
      match wait_for_ports E available_ports lines w with
      | (Raise e, lines, w) => (Raise e, lines, w)
      | (Ok available_ports, lines, w) => menu_loop available_ports lines w
      end
  end.

Fixpoint baudrate_menu (lines : console) (w : world) {struct lines}
  : result Z * console * world :=
  let w :=
    print (lit "Choose a baudrate (leave empty for 230400 by default):") w in
  match lines with
  | [] => (Raise EOFError, [], emit (Prompt []) w)
  | resp :: rest =>
      let w := emit (Stdin resp) (emit (Prompt []) w) in
      match resp with
      | [] => (Ok 230400, rest, w)
      | _ =>
          match Py.int resp with
          | Ok n => (Ok n, rest, w)
          | Raise ValueError =>
              baudrate_menu rest
                (print (lit "Wrong reponse type, try again !") w)
          | Raise e => (Raise e, rest, w)
          end
      end
  end.

(** The loop of [divide_chunks], one slice appended per start index. *)
Definition divide_chunks (data : py_bytes) (chunk_size : Z)
  : result (list py_bytes) :=
  match Py.range 0 (len data) chunk_size with
  | Raise e => Raise e
  | Ok starts =>
      Ok (fold_left
            (fun chunks i => chunks ++ [Py.slice data i (i + chunk_size)])
            starts [])
  end.

(** [write_chunk]: the connection is closed when the [with] block is left,
    also by the exception.  The padding loop starts from the variable [i]
    the first loop leaves behind; when the chunk is empty the first loop
    never binds it. *)
Definition write_chunk (chunk : py_bytes) (port : py_str) (baudrate : Z)
  (w : world) : result unit * world :=
  let w := emit (Open port (Some baudrate)) w in
  let w := emit (Sleep 100) w in
  let '(i, w) :=
    for_each (Py.range2 0 (len chunk))
      (fun i => emit (Write (PyInt (nth (Z.to_nat i) chunk 0)))) None w in
  match i with
  | None => (Raise UnboundLocalError, emit (Close port) w)
  | Some i =>
      let '(_, w) :=
        for_each (Py.range2 (i + 1) 16)
          (fun _ => emit (Write (PyBytes (lit "0")))) None w in
      (Ok tt, emit (Close port) w)
  end.

Definition read_chunk (E : env) (port : py_str) (baudrate : Z) (w : world)
  : py_bytes * world :=
  let w := emit (Open port (Some baudrate)) w in
  let w := emit (Sleep 100) w in
  let chunk := device E (trace w) in
  let w := emit (Read 16 chunk) w in
  (chunk, emit (Close port) w).

(** The [for] loop of the session: send each chunk, read the answer back,
    collect the answers. *)
Fixpoint send_chunks (E : env) (port : py_str) (baudrate : Z)
  (items : list (Z * py_bytes)) (output_chunks : list py_bytes) (w : world)
  : result (list py_bytes) * world :=
  match items with
  | [] => (Ok output_chunks, w)
  | (i, current_chunk) :: rest =>
      let w :=
        print_end (lit "Sending chunk " ++ Py.str_of_int i ++ lit ": "
                   ++ Py.hex current_chunk) (lit " -> ") w in
      match write_chunk current_chunk port baudrate w with
      | (Raise e, w) => (Raise e, w)
      | (Ok _, w) =>
          let '(current_chunk, w) := read_chunk E port baudrate w in
          let w := print (Py.hex current_chunk) w in
          send_chunks E port baudrate rest (output_chunks ++ [current_chunk]) w
      end
  end.

(** [[b.decode() for b in output_chunks]] *)
Fixpoint decode_each (output_chunks : list py_bytes) : result (list py_str) :=
  match output_chunks with
  | [] => Ok []
  | b :: rest =>
      match Py.decode b with
      | Raise e => Raise e
      | Ok s =>
          match decode_each rest with
          | Ok ss => Ok (s :: ss)
          | Raise e => Raise e
          end
      end
  end.

(** The expression that rebuilds the text:
    ["".join([b.decode() for b in output_chunks])[:len(input_text)]] *)
Definition reconstruct (output_chunks : list py_bytes) (input_text : py_str)
  : result py_str :=
  match decode_each output_chunks with
  | Raise e => Raise e
  | Ok parts => Ok (Py.slice_to (concat parts) (len input_text))
  end.

(** One pass of the session loop, from the text just read to the text
    printed, which is also returned. *)
Definition session_round (E : env) (port : py_str) (baudrate : Z)
  (input_text : py_str) (w : world) : result py_str * world :=
  match Py.encode input_text with
  | Raise e => (Raise e, w)
  | Ok input_bytes =>
      let w := print (lit "Encoded text: " ++ Py.hex input_bytes) w in
      match divide_chunks input_bytes 16 with
      | Raise e => (Raise e, w)
      | Ok input_chunks =>
          let w :=
            print (Py.str_of_int (len input_chunks)
                   ++ lit " chunk(s) to send") w in
          match send_chunks E port baudrate (Py.enumerate input_chunks) [] w
          with
          | (Raise e, w) => (Raise e, w)
          | (Ok output_chunks, w) =>
              match reconstruct output_chunks input_text with
              | Raise e => (Raise e, w)
              | Ok output_text =>
                  let w :=
                    print (lit "Output text:" ++ [newline; dquote]
                           ++ output_text ++ [dquote]) w in
                  (Ok output_text, print [newline; newline] w)
              end
          end
      end
  end.

(** The session loop: it has no exit; it stops on the first exception, at
    the latest [EOFError] when the input ends. *)
Fixpoint session_loop (E : env) (port : py_str) (baudrate : Z)
  (lines : console) (w : world) {struct lines} : exn * world :=
  let prompt := lit "Text to send ?" ++ [newline] in
  match lines with
  | [] => (EOFError, emit (Prompt prompt) w)
  | input_text :: rest =>
      let w := emit (Stdin input_text) (emit (Prompt prompt) w) in
      match session_round E port baudrate input_text w with
      | (Raise e, w) => (e, w)
      | (Ok _, w) => session_loop E port baudrate rest w
      end
  end.

(** The script: banner, port, baud rate, then the session loop. *)
Definition script (E : env) (lines : console) : exn * world :=
  let w := print TITLE start in
  match serial_port_menu E lines w with
  | (Raise e, _, w) => (e, w)
  | (Ok port, lines, w) =>
      let w := print [newline] w in
      match baudrate_menu lines w with
      | (Raise e, _, w) => (e, w)
      | (Ok baudrate, lines, w) =>
          let w := print [newline] w in
          let w := print [newline] w in
          session_loop E port baudrate lines w
      end
  end.

End UartInterface.

(** ** [src/python/uart_interface_loopback.py]: the self-test *)

Module UartInterfaceLoopback.

Definition DEFAULT_PORT : option py_str := None.
Definition DEFAULT_BAUDRATE : option Z := Some 115200.

Definition TITLE : py_str := lit "
  _____ _     _____ ____      _   _       _  _    ___   ___  
 | ____| |   | ____/ ___|    | | | |     | || |  / _ \ / _ \ 
 |  _| | |   |  _|| |   _____| |_| |_____| || |_| | | | (_) |
 | |___| |___| |__| |__|_____|  _  |_____|__   _| |_| |\__, |
 |_____|_____|_____\____|    |_| |_|        |_|  \___/   /_/
         _   ___ ___   ___          _        _   
        /_\ | __/ __| | _ \_ _ ___ (_)___ __| |_ 
       / _ \| _|\__ \ |  _/ '_/ _ \| / -_) _|  _|
      /_/ \_\___|___/ |_| |_| \___// \___\__|\__|
                                 |__/           
".

(** [serial_ports] and the two loops of [serial_port_menu] have the same
    text in both scripts. *)
Definition serial_ports := UartInterface.serial_ports.
Definition call_serial_ports := UartInterface.call_serial_ports.
Definition wait_for_ports := UartInterface.wait_for_ports.
Definition menu_loop := UartInterface.menu_loop.

(** Here a single available port is taken without asking. *)
Definition serial_port_menu (E : env) (lines : console) (w : world)
  : result py_str * console * world :=
  match call_serial_ports E w with
  | (Raise e, w) => (Raise e, lines, w)
  | (Ok available_ports, w) =>
      match wait_for_ports E available_ports lines w with
      | (Raise e, lines, w) => (Raise e, lines, w)
      | (Ok available_ports, lines, w) =>
          if len available_ports =? 1 then
            match Py.index available_ports 0 with
            | Raise e => (Raise e, lines, w)
            | Ok port =>
                (Ok port, lines,
                 print (lit "Using only available port " ++ [dquote] ++ port
                        ++ [dquote]) w)
            end
          else menu_loop available_ports lines w
      end
  end.

Fixpoint baudrate_menu (lines : console) (w : world) {struct lines}
  : result Z * console * world :=
  let w := print (lit "Choose a baudrate:") w in
  match lines with
  | [] => (Raise EOFError, [], emit (Prompt []) w)
  | resp :: rest =>
      let w := emit (Stdin resp) (emit (Prompt []) w) in
      match Py.int resp with
      | Ok n => (Ok n, rest, w)
      | Raise ValueError =>
          baudrate_menu rest (print (lit "Wrong reponse type, try again !") w)
      | Raise e => (Raise e, rest, w)
      end
  end.

(** The truth value of the two defaults: [None], the empty string and zero
    count as unset. *)
Definition port_is_set (p : option py_str) : bool :=
  match p with
  | Some (_ :: _) => true
  | _ => false
  end.

Definition baudrate_is_set (b : option Z) : bool :=
  match b with
  | Some n => negb (n =? 0)
  | None => false
  end.

(** The first part of [main]: which port to use. *)
Definition choose_port (E : env) (lines : console) (w : world)
  : result py_str * console * world :=
  match DEFAULT_PORT with
  | Some default_port =>
      if port_is_set DEFAULT_PORT then
        match call_serial_ports E w with
        | (Raise e, w) => (Raise e, lines, w)
        | (Ok ports, w) =>
            if existsb (Py.str_eq default_port) ports then
              (Ok default_port, lines,
               print (lit "Using default serial port: " ++ default_port) w)
            else
              serial_port_menu E lines
                (print (lit "Default serial port is not available.") w)
        end
      else
        serial_port_menu E lines
          (print (lit "Default serial port is not set.") w)
  | None =>
      serial_port_menu E lines (print (lit "Default serial port is not set.") w)
  end.

(** The second part of [main]: which baud rate to use. *)
Definition choose_baudrate (lines : console) (w : world)
  : result Z * console * world :=
  match DEFAULT_BAUDRATE with
  | Some default_baudrate =>
      if baudrate_is_set DEFAULT_BAUDRATE then
        (Ok default_baudrate, lines,
         print (lit "Using default baudrate: "
                ++ Py.str_of_int default_baudrate) w)
      else baudrate_menu lines (print (lit "Default baudrate is not set.") w)
  | None => baudrate_menu lines (print (lit "Default baudrate is not set.") w)
  end.

(** The [with] block of [main]: one connection, the whole payload in one
    write, sixteen bytes read back on the same connection. *)
Definition exchange (E : env) (port : py_str) (baudrate : Z)
  (input_bytes : py_bytes) (w : world) : py_bytes * world :=
  let w := emit (Open port (Some baudrate)) w in
  let w := emit (Write (PyBytes input_bytes)) w in
  let output_bytes := device E (trace w) in
  let w := emit (Read 16 output_bytes) w in
  (output_bytes, emit (Close port) w).

Definition main (E : env) (input_bytes : py_bytes) (lines : console)
  (w : world) : result py_bytes * console * world :=
  let w := print TITLE w in
  match choose_port E lines w with
  | (Raise e, lines, w) => (Raise e, lines, w)
  | (Ok port, lines, w) =>
      match choose_baudrate lines w with
      | (Raise e, lines, w) => (Raise e, lines, w)
      | (Ok baudrate, lines, w) =>
          let w := print [] w in
          let w :=
            print (lit "Sending input data: " ++ [tab] ++ Py.hex input_bytes)
              w in
          let w := print [] w in
          let '(output_bytes, w) := exchange E port baudrate input_bytes w in
          (Ok output_bytes, lines, w)
      end
  end.

(** The fixed literal of the script. *)
Definition input_data : py_str := lit "000102030405060708090a0b0c0d0e0f".

Definition length_message : py_str :=
  [dquote] ++ lit "input_data" ++ [dquote] ++ lit " length is not 16 bytes".

Definition format_message : py_str :=
  [dquote] ++ lit "input_data" ++ [dquote]
  ++ lit " value is not a correct hexadecimal form".

(** The word the script prints last. *)
Definition verdict (input_data : py_str) (output_bytes : py_bytes) : py_str :=
  if Py.str_eq input_data (Py.hex output_bytes)
  then lit "SUCCES"
  else lit "FAIL".

(** The script, for any literal in the place of [input_data].  [exit()]
    raises [SystemExit], which the [except ValueError] clause lets through. *)
Definition script_with (E : env) (input_data : py_str) (lines : console)
  : result unit * world :=
  let w := start in
  if negb (len input_data =? 32) then
    (Raise SystemExit, print length_message w)
  else
    match Py.fromhex input_data with
    | Raise ValueError => (Raise SystemExit, print format_message w)
    | Raise e => (Raise e, w)
    | Ok input_bytes =>
        match main E input_bytes lines w with
        | (Raise e, _, w) => (Raise e, w)
        | (Ok output_bytes, _, w) =>
            let w :=
              print (lit "Received data: " ++ [tab; tab]
                     ++ Py.hex output_bytes) w in
            let w :=
              print_end ([newline] ++ lit "Loopback test status: " ++ [tab])
                [] w in
            (Ok tt, print (verdict input_data output_bytes) w)
        end
    end.

Definition script (E : env) (lines : console) : result unit * world :=
  script_with E input_data lines.

End UartInterfaceLoopback.

(** * Vocabulary of the statements *)

Import UartInterface.

(** ** Chunks and frames *)

(** The k-th block of width c. *)
Definition block {A : Type} (c : nat) (data : list A) (k : nat) : list A :=
  firstn c (skipn (c * k) data).

(** The number of chunks: the least n with [len data <= n * c]. *)
Definition chunk_count (n c : Z) : Z := (n + c - 1) / c.

(** What a loop leaves in its variable. *)
Definition bound_after {A : Type} (items : list A) (last : option A)
  : option A :=
  fold_left (fun _ x => Some x) items last.

(** The events of one call of [write_chunk] on a chunk that is not empty. *)
Definition frame_events (port : py_str) (baudrate : Z) (chunk : py_bytes)
  : list event :=
  [Open port (Some baudrate); Sleep 100]
  ++ map (fun b => Write (PyInt b)) chunk
  ++ repeat (Write (PyBytes (lit "0"))) (16 - length chunk)
  ++ [Close port].

(** ** The self-test literal *)

(** A character that is neither a hexadecimal digit nor white space. *)
Definition not_hex (c : Z) : Prop :=
  Py.hexval c = None /\ Py.is_hex_space c = false.

(** The payload the fixed literal stands for. *)
Definition payload : py_bytes := Py.range1 16.

(** ** Traces and menus *)

(** [w'] is [w] after more events, all of them of kind [P], and after [n]
    more enumerations. *)
Definition extends (P : event -> Prop) (n : nat) (w w' : world) : Prop :=
  enum_calls w' = (enum_calls w + n)%nat /\
  exists evs, trace w' = trace w ++ evs /\ Forall P evs.

(** The events added between two worlds. *)
Definition added (w w' : world) : list event :=
  skipn (length (trace w)) (trace w').

Definition probe_events (sys : system) (port : py_str) : list event :=
  if openable sys port then [Open port None; Close port]
  else [OpenFailed port].

(** The events of the probing: a port opened without a baud rate and closed
    again, or a port that did not open. *)
Definition is_probe (e : event) : Prop :=
  match e with
  | Open _ None | Close _ | OpenFailed _ => True
  | _ => False
  end.

(** What the n-th enumeration of a run finds. *)
Definition enumeration (E : env) (n : nat) : result (list py_str) :=
  fst (serial_ports (system_at E n)).

(** What the menu loop adds to the trace: printed lines, the empty prompt,
    the lines read. *)
Definition is_menu_event (e : event) : Prop :=
  match e with
  | Stdout _ | Stdin _ | Prompt [] => True
  | _ => False
  end.

(** The menu is shown and a line is read. *)
Definition menu_asks (ports : list py_str) (line : py_str) (w : world)
  : world :=
  emit (Stdin line)
    (emit (Prompt [])
       (print_ports ports (print (lit "Choose a serial port:") w))).

Definition wrong_type : py_str := lit "Wrong reponse type, try again !".

Definition out_of_range (resp : Z) : py_str :=
  Py.str_of_int resp ++ lit " is out of range, try again !".

Definition is_retry (e : event) : bool :=
  match e with
  | Prompt p => Py.str_eq p retry_prompt
  | _ => false
  end.

(** How many times a trace shows the prompt of the waiting loop. *)
Definition retry_prompts (t : list event) : nat := length (filter is_retry t).

(** [w'] is [w] after [n] more enumerations and [k] more retry prompts. *)
Definition steps (n k : nat) (w w' : world) : Prop :=
  enum_calls w' = (enum_calls w + n)%nat /\
  exists evs, trace w' = trace w ++ evs /\ retry_prompts evs = k.

(** A call of a port menu went on after [k] retry prompts: it has shown the
    retry prompt [k] times, taken a line of input for each, enumerated
    [k + 1] times, and a port it returns is one of [ports]. *)
Definition went_on (k : nat) (ports : list py_str) (lines : console)
  (w : world) (outcome : result py_str * console * world) : Prop :=
  let '(r, lines', w') := outcome in
  retry_prompts (added w w') = k /\
  enum_calls w' = (enum_calls w + k + 1)%nat /\
  (exists used, skipn k lines = used ++ lines') /\
  (forall p, r = Ok p -> In p ports).

(** A call of a port menu gave up: it raised [EOFError] and returned no
    port. *)
Definition gave_up (outcome : result py_str * console * world) : Prop :=
  fst (fst outcome) = Raise EOFError.

(** A port menu: the first enumeration, the waiting loop, and then what
    the variant does with the ports found. *)
Definition menu_with
  (choose : list py_str -> console -> world -> result py_str * console * world)
  (E : env) (lines : console) (w : world) : result py_str * console * world :=
  match call_serial_ports E w with
  | (Raise e, w0) => (Raise e, lines, w0)
  | (Ok available_ports, w0) =>
      match wait_for_ports E available_ports lines w0 with
      | (Raise e, ls, w1) => (Raise e, ls, w1)
      | (Ok available_ports, ls, w1) => choose available_ports ls w1
      end
  end.

(** What the self-test's menu does with the ports found. *)
Definition choose_or_take_the_only_one (available_ports : list py_str)
  (ls : console) (w0 : world) : result py_str * console * world :=
  if len available_ports =? 1 then
    match Py.index available_ports 0 with
    | Raise e => (Raise e, ls, w0)
    | Ok port =>
        (Ok port, ls,
         print (lit "Using only available port " ++ [dquote]
                ++ port ++ [dquote]) w0)
    end
  else menu_loop available_ports ls w0.

(** Console traffic and the probing of the enumeration: what happens before
    a port is used for data. *)
Definition is_preparation (e : event) : Prop :=
  match e with
  | Stdout _ | Prompt _ | Stdin _ => True
  | Open _ None | Close _ | OpenFailed _ => True
  | _ => False
  end.

Definition exchange_events (port : py_str) (baudrate : Z)
  (input_bytes output_bytes : py_bytes) : list event :=
  [Open port (Some baudrate); Write (PyBytes input_bytes);
   Read 16 output_bytes; Close port].

(** ** Text *)

Definition is_ascii (c : Z) : Prop := 0 <= c <= 127.

Definition undecodable (b : py_bytes) : Prop :=
  Py.decode b = Raise UnicodeDecodeError.

(** The frame a chunk is meant to travel in: its bytes, then ASCII zeros up
    to sixteen bytes. *)
Definition padded_frame (chunk : py_bytes) : py_bytes :=
  chunk ++ repeat 48 (16 - length chunk).

(** The history a read-back sees: what came before, the frame of the chunk
    on its own connection, and the second connection just opened. *)
Definition at_read_back (port : py_str) (baudrate : Z) (before : list event)
  (chunk : py_bytes) : list event :=
  before ++ frame_events port baudrate chunk
  ++ [Open port (Some baudrate); Sleep 100].

(** [answer] is what the device returns when [chunk] is read back. *)
Definition answers_to (E : env) (port : py_str) (baudrate : Z)
  (chunk answer : py_bytes) : Prop :=
  exists before, answer = device E (at_read_back port baudrate before chunk).

(** ** Benches: concrete machines and devices *)

Definition ttyUSB0 : py_str := lit "/dev/ttyUSB0".
Definition ttyUSB1 : py_str := lit "/dev/ttyUSB1".
Definition ttyACM0 : py_str := lit "/dev/ttyACM0".

(** A Linux machine on which [glob] finds [ports] and all of them open. *)
Definition linux_with (ports : list py_str) : system :=
  {| platform := lit "linux";
     glob := fun _ => ports;
     openable := fun _ => true |}.

Definition last16 {A : Type} (l : list A) : list A :=
  skipn (length l - 16) l.

(** A loop-back plug: a read returns the last sixteen bytes that were put
    on the wire. *)
Definition wire_echo (t : list event) : py_bytes := last16 (wire t).

(** The byte values a write call was handed. *)
Definition call_values (v : pyval) : py_bytes :=
  match v with
  | PyInt n => [n]
  | PyBytes b => b
  end.

(** A device that answers with the values of the last sixteen write calls,
    one byte for an integer: the frame the session means to send. *)
Definition frame_echo (t : list event) : py_bytes :=
  concat (map call_values (last16 (writes t))).

(** A device whose answer is never valid UTF-8. *)
Definition garbled (t : list event) : py_bytes := repeat 255 16.

Definition bench (ports_at : nat -> list py_str)
  (dev : list event -> py_bytes) : env :=
  {| system_at := fun n => linux_with (ports_at n); device := dev |}.

(** One port, with a loop-back plug. *)
Definition one_port : env := bench (fun _ => [ttyUSB0]) wire_echo.

(** Three ports. *)
Definition three_ports : env :=
  bench (fun _ => [ttyUSB0; ttyUSB1; ttyACM0]) wire_echo.

(** No port at the first enumeration, three from the second on. *)
Definition plugged_late : env :=
  bench (fun n => match n with
                  | O => []
                  | S _ => [ttyUSB0; ttyUSB1; ttyACM0]
                  end) wire_echo.

(** Whether a trace holds the line [s] printed. *)
Definition printed (s : py_str) (t : list event) : bool :=
  existsb (fun e => match e with
                    | Stdout x => Py.str_eq x (s ++ [newline])
                    | _ => false
                    end) t.

(** The serial events of a trace. *)
Definition serial_events (t : list event) : list event := filter is_serial t.

Definition is_sleep (e : event) : bool :=
  match e with Sleep _ => true | _ => false end.

Definition is_data_open (e : event) : bool :=
  match e with Open _ (Some _) => true | _ => false end.

(** How often a trace sleeps, and how often it opens a port for data. *)
Definition sleeps (t : list event) : nat := length (filter is_sleep t).

Definition data_opens (t : list event) : nat :=
  length (filter is_data_open t).

(** ** The transfer in the specification's words *)

(** The transfer of the chunked transport as the specification words it:
    open, settle for 100 ms, one write call per byte of the chunk, filler
    up to sixteen bytes, close; then a second connection, the same delay, a
    read of sixteen bytes, close. *)
Definition transfer_contract (port : py_str) (baudrate : Z)
  (chunk response : py_bytes) : list event :=
  [Open port (Some baudrate); Sleep 100]
  ++ map (fun b => Write (PyBytes [b])) chunk
  ++ repeat (Write (PyBytes (lit "0"))) (16 - length chunk)
  ++ [Close port]
  ++ [Open port (Some baudrate); Sleep 100; Read 16 response; Close port].

(** ** The serial line *)

(** The serial line as a trace uses it: no port open, or one. *)
Definition line : Type := option py_str.

(** One event on the line.  A port is opened only when none is open and
    closed only when it is the one open; a write or a read needs an open
    port; anything else is refused ([None]). *)
Definition line_after (e : event) (s : line) : option line :=
  match e, s with
  | Open p _, None => Some (Some p)
  | OpenFailed _, None => Some None
  | Close p, Some q => if Py.str_eq p q then Some None else None
  | Write _, Some q => Some (Some q)
  | Read _ _, Some q => Some (Some q)
  | Sleep _, _ => Some s
  | Stdout _, _ => Some s
  | Prompt _, _ => Some s
  | Stdin _, _ => Some s
  | _, _ => None
  end.

Fixpoint line_run (t : list event) (s : line) : option line :=
  match t with
  | [] => Some s
  | e :: t' =>
      match line_after e s with
      | Some s' => line_run t' s'
      | None => None
      end
  end.

(** A trace that starts and ends with no port open and never misuses the
    line in between. *)
Definition disciplined (t : list event) : Prop := line_run t None = Some None.

(** [w'] is [w] after a stretch of events that leaves the line as it found
    it, free. *)
Definition tidy (w w' : world) : Prop :=
  exists evs, trace w' = trace w ++ evs /\ disciplined evs.

(** ** Platforms and menus, line by line *)

(** Whether [serial_ports] knows the platform. *)
Definition supported (sys : system) : bool :=
  Py.startswith (platform sys) (lit "win")
  || Py.startswith (platform sys) (lit "linux")
  || Py.startswith (platform sys) (lit "cygwin")
  || Py.startswith (platform sys) (lit "darwin").

(** The session's baud-rate menu asks: its header, the empty prompt, the
    line read. *)
Definition session_baudrate_asks (resp : py_str) (w : world) : world :=
  emit (Stdin resp)
    (emit (Prompt [])
       (print (lit "Choose a baudrate (leave empty for 230400 by default):")
          w)).

(** The self-test's baud-rate menu asks. *)
Definition loopback_baudrate_asks (resp : py_str) (w : world) : world :=
  emit (Stdin resp) (emit (Prompt []) (print (lit "Choose a baudrate:") w)).




(** ** Payloads and transfers *)

(** A value a [bytes] object can hold. *)
Definition is_byte (b : Z) : Prop := 0 <= b <= 255.

(** An upper-case hexadecimal digit, [A] to [F]. *)
Definition upper_hex (c : Z) : Prop := 65 <= c <= 70.

(** The last three lines of the self-test, with the word of the verdict. *)
Definition report (output_bytes : py_bytes) (word : py_str) (w : world)
  : world :=
  print word
    (print_end ([newline] ++ lit "Loopback test status: " ++ [tab]) []
       (print (lit "Received data: " ++ [tab; tab] ++ Py.hex output_bytes)
          w)).

(** The two connections of the session for one chunk: the frame written,
    then the answer read back. *)
Definition transfer_events (port : py_str) (baudrate : Z)
  (chunk answer : py_bytes) : list event :=
  frame_events port baudrate chunk
  ++ [Open port (Some baudrate); Sleep 100; Read 16 answer; Close port].

(** ** A verbatim echo *)

(** A device that echoes verbatim what is on the wire: when the frame just
    written put sixteen bytes or more on it, a read of sixteen bytes
    returns sixteen consecutive bytes of them. *)
Definition echoes_the_wire (E : env) (port : py_str) (baudrate : Z) : Prop :=
  forall before chunk,
    (16 <= length (wire (frame_events port baudrate chunk)))%nat ->
    exists skipped,
      (skipped + 16
       <= length (wire (frame_events port baudrate chunk)))%nat /\
      device E (at_read_back port baudrate before chunk)
      = firstn 16 (skipn skipped (wire (frame_events port baudrate chunk))).

(** What comes back for a chunk when the wire is echoed: zeros for the
    bytes of the chunk at least, then fillers. *)
Definition zeros_for (chunk answer : py_bytes) : Prop :=
  exists z,
    (length chunk <= z <= 16)%nat /\
    answer = repeat 0 z ++ repeat 48 (16 - z).

(** ** More benches *)

(** A Windows machine on which only COM3 and COM7 open. *)
Definition windows_bench : system :=
  {| platform := lit "win32";
     glob := fun _ => [];
     openable :=
       fun p => Py.str_eq p (lit "COM3") || Py.str_eq p (lit "COM7") |}.

(** A machine [serial_ports] does not know. *)
Definition unknown_bench : env :=
  {| system_at := fun _ => {| platform := lit "freebsd13";
                              glob := fun _ => [ttyUSB0];
                              openable := fun _ => true |};
     device := wire_echo |}.

(** One port, with a device that returns every frame as it was meant. *)
Definition echo_bench : env := bench (fun _ => [ttyUSB0]) frame_echo.

(** * Verification *)

(** ** Lists cut into blocks *)

Section Blocks.

Context {A : Type}.

Lemma firstn_plus (a b : nat) (l : list A) :
  firstn (a + b) l = firstn a l ++ firstn b (skipn a l).
Proof.
  revert l; induction a as [|a IH]; intros l; [reflexivity|].
  destruct l as [|x l]; simpl.
  - now rewrite firstn_nil.
  - now rewrite IH.
Qed.

Lemma fold_append {B : Type} (f : B -> A) (l : list B) (acc : list A) :
  fold_left (fun chunks i => chunks ++ [f i]) l acc = acc ++ map f l.
Proof.
  revert acc; induction l as [|x l IH]; intros acc; simpl.
  - now rewrite app_nil_r.
  - rewrite IH, <- app_assoc. reflexivity.
Qed.

Lemma concat_blocks (c : nat) (data : list A) (n : nat) :
  concat (map (block c data) (seq 0 n)) = firstn (c * n) data.
Proof.
  induction n as [|n IH].
  - now rewrite Nat.mul_0_r.
  - rewrite seq_S, map_app, concat_app, IH. simpl.
    rewrite app_nil_r. unfold block.
    replace (c * S n)%nat with (c * n + c)%nat by lia.
    now rewrite firstn_plus.
Qed.

Lemma length_block (c : nat) (data : list A) (k : nat) :
  length (block c data k) = Nat.min c (length data - c * k).
Proof.
  unfold block. now rewrite length_firstn, length_skipn.
Qed.

(** A slice that starts inside the sequence and is c wide is a block. *)
Lemma slice_block (data : list A) (lo c : Z) :
  0 <= lo <= len data -> 0 <= c ->
  Py.slice data lo (lo + c)
  = firstn (Z.to_nat c) (skipn (Z.to_nat lo) data).
Proof.
  intros Hlo Hc. unfold Py.slice, Py.clip, len in *.
  destruct (Z.ltb_spec lo 0); [lia|].
  destruct (Z.ltb_spec (lo + c) 0); [lia|].
  rewrite (Z.min_l lo) by lia.
  destruct (Z.le_gt_cases (lo + c) (Z.of_nat (length data))) as [Hin|Hout].
  - rewrite Z.min_l by lia. f_equal. lia.
  - rewrite Z.min_r by lia.
    rewrite !firstn_all2; try reflexivity; rewrite length_skipn; lia.
Qed.

End Blocks.

(** ** [divide_chunks] *)

Lemma range_from_zero (n c : Z) :
  0 <= n -> 0 < c ->
  Py.range 0 n c
  = Ok (map (fun k => Z.of_nat k * c) (seq 0 (Z.to_nat (chunk_count n c)))).
Proof.
  intros Hn Hc. unfold Py.range, chunk_count.
  destruct (Z.eqb_spec c 0); [lia|].
  destruct (Z.ltb_spec 0 c); [|lia].
  f_equal. destruct (Z.ltb_spec 0 n) as [Hpos|Hzero].
  - replace (n + c - 1) with (n - 0 - 1 + 1 * c) by lia.
    rewrite Z.div_add by lia. reflexivity.
  - assert (n = 0) by lia; subst n.
    rewrite Z.div_small by lia. reflexivity.
Qed.

Lemma chunk_count_bounds (n c : Z) :
  0 <= n -> 0 < c ->
  c * (chunk_count n c - 1) < n <= c * chunk_count n c /\
  0 <= chunk_count n c.
Proof.
  intros Hn Hc. unfold chunk_count.
  pose proof (Z.div_mod (n + c - 1) c ltac:(lia)) as Hdm.
  pose proof (Z.mod_pos_bound (n + c - 1) c Hc) as Hm.
  pose proof (Z.div_pos (n + c - 1) c ltac:(lia) Hc).
  nia.
Qed.

(** What [divide_chunks] computes for a positive chunk size: the blocks of
    that width, in order. *)
Lemma divide_chunks_blocks (data : py_bytes) (c : Z) :
  0 < c ->
  divide_chunks data c
  = Ok (map (block (Z.to_nat c) data)
          (seq 0 (Z.to_nat (chunk_count (len data) c)))).
Proof.
  intros Hc. unfold divide_chunks.
  rewrite range_from_zero by (unfold len; lia).
  rewrite fold_append, map_map. simpl. f_equal.
  apply map_ext_in. intros k Hk. apply in_seq in Hk.
  pose proof (chunk_count_bounds (len data) c ltac:(unfold len; lia) Hc).
  rewrite slice_block by (unfold len in *; nia).
  unfold block. do 2 f_equal. nia.
Qed.

Theorem divide_chunks_16 (P : py_bytes) :
  exists chunks,
    divide_chunks P 16 = Ok chunks /\
    (forall k, (k < length chunks)%nat ->
       nth k chunks [] = firstn 16 (skipn (16 * k) P)) /\
    concat chunks = P /\
    (forall k, (S k < length chunks)%nat ->
       length (nth k chunks []) = 16%nat) /\
    (chunks <> [] -> (1 <= length (last chunks []) <= 16)%nat) /\
    (chunks = [] <-> P = []) /\
    len chunks = (len P + 15) / 16.
Proof.
  pose proof (chunk_count_bounds (len P) 16 ltac:(unfold len; lia) ltac:(lia))
    as [Hb Hpos].
  set (n := Z.to_nat (chunk_count (len P) 16)) in *.
  assert (Hn : Z.of_nat n = chunk_count (len P) 16) by (unfold n; lia).
  pose proof (divide_chunks_blocks P 16 ltac:(lia)) as Hdiv.
  change (Z.to_nat 16) with 16%nat in Hdiv. fold n in Hdiv.
  rewrite <- Hn in Hb. unfold len in Hb. clearbody n.
  set (chunks := map (block 16 P) (seq 0 n) : list py_bytes).
  exists chunks.
  assert (Hlen : length chunks = n)
    by (unfold chunks; now rewrite length_map, length_seq).
  assert (Hnth : forall k, (k < n)%nat -> nth k chunks [] = block 16 P k).
  { intros k Hk. unfold chunks.
    rewrite (nth_indep _ [] (block 16 P 0))
      by (rewrite length_map, length_seq; lia).
    rewrite map_nth, seq_nth by lia. reflexivity. }
  split; [exact Hdiv|].
  repeat apply conj.
  - intros k Hk. rewrite Hnth by lia. reflexivity.
  - unfold chunks. rewrite concat_blocks. apply firstn_all2. lia.
  - intros k Hk. rewrite Hnth by lia. rewrite length_block. lia.
  - unfold chunks. destruct n as [|m]; [now intros []|]. intros _.
    rewrite seq_S, map_app. simpl map. rewrite last_last, length_block. lia.
  - intros Hnil. rewrite Hnil in Hlen. simpl in Hlen.
    apply length_zero_iff_nil. lia.
  - intros ->. unfold chunks. destruct n; [reflexivity|simpl length in Hb; lia].
  - unfold len. rewrite Hlen, Hn. unfold chunk_count, len. f_equal. lia.
Qed.

(** ** Traces *)

Lemma emits_nil (w : world) : emits [] w = w.
Proof. destruct w. unfold emits. simpl. now rewrite app_nil_r. Qed.

Lemma emit_emits (e : event) (w : world) : emit e w = emits [e] w.
Proof. reflexivity. Qed.

Lemma emits_emits (a b : list event) (w : world) :
  emits b (emits a w) = emits (a ++ b) w.
Proof. unfold emits. simpl. now rewrite app_assoc. Qed.

Lemma print_emits (s : py_str) (w : world) :
  print s w = emits [Stdout (s ++ [newline])] w.
Proof. reflexivity. Qed.

Lemma for_each_emit {A : Type} (f : A -> event) (items : list A)
  (last : option A) (w : world) :
  for_each items (fun x => emit (f x)) last w
  = (bound_after items last, emits (map f items) w).
Proof.
  revert last w; induction items as [|x items IH]; intros last w; simpl.
  - now rewrite emits_nil.
  - rewrite IH, emit_emits, emits_emits. reflexivity.
Qed.

Lemma map_nth_seq {A : Type} (l : list A) (d : A) :
  map (fun k => nth k l d) (seq 0 (length l)) = l.
Proof.
  induction l as [|a l IH]; [reflexivity|].
  simpl. f_equal. rewrite <- seq_shift, map_map. exact IH.
Qed.

Lemma range2_from_zero (n : nat) :
  Py.range2 0 (Z.of_nat n) = map Z.of_nat (seq 0 n).
Proof.
  unfold Py.range2. rewrite Z.sub_0_r, Nat2Z.id. reflexivity.
Qed.

Lemma bound_after_range (n : nat) :
  bound_after (Py.range2 0 (Z.of_nat (S n))) None = Some (Z.of_nat n).
Proof.
  rewrite range2_from_zero, seq_S, map_app. unfold bound_after.
  rewrite fold_left_app. reflexivity.
Qed.

Lemma map_const_repeat {A B : Type} (b : B) (l : list A) :
  map (fun _ => b) l = repeat b (length l).
Proof. induction l; simpl; congruence. Qed.

(** [write_chunk] on a chunk that is not empty: one write call per byte,
    handed the integer value of the byte, then one write call of [b'0'] for
    each position up to sixteen. *)
Lemma write_chunk_calls (chunk : py_bytes) (port : py_str) (baudrate : Z)
  (w : world) :
  chunk <> [] ->
  write_chunk chunk port baudrate w
  = (Ok tt, emits (frame_events port baudrate chunk) w).
Proof.
  intros Hne. unfold write_chunk, frame_events.
  assert (Hlen : exists n, length chunk = S n).
  { destruct chunk; [congruence|]. simpl. eauto. }
  destruct Hlen as [n Hn].
  rewrite (for_each_emit (fun i => Write (PyInt (nth (Z.to_nat i) chunk 0)))).
  unfold len. rewrite Hn, bound_after_range.
  rewrite (for_each_emit (fun _ => Write (PyBytes (lit "0")))).
  rewrite !emit_emits, !emits_emits. do 2 f_equal.
  cbn [app]. do 2 f_equal. f_equal.
  - rewrite range2_from_zero, map_map, <- Hn.
    rewrite <- (map_nth_seq chunk 0) at 2. rewrite map_map.
    apply map_ext. intros k. now rewrite Nat2Z.id.
  - f_equal. rewrite map_const_repeat. f_equal.
    unfold Py.range2. rewrite length_map, length_seq. lia.
Qed.

Lemma write_chunk_empty (port : py_str) (baudrate : Z) (w : world) :
  write_chunk [] port baudrate w
  = (Raise UnboundLocalError,
     emits [Open port (Some baudrate); Sleep 100; Close port] w).
Proof.
  unfold write_chunk. simpl. rewrite !emit_emits, !emits_emits. reflexivity.
Qed.

(** ** What can be raised *)

Lemma encode_raises (s : py_str) (e : exn) :
  Py.encode s = Raise e -> e = UnicodeEncodeError.
Proof.
  induction s as [|c s IH]; simpl; [discriminate|].
  destruct (Py.encode_char c); destruct (Py.encode s);
    intros H; inversion H; subst; auto.
Qed.

Ltac decode_step :=
  match goal with
  | |- context [if ?c then _ else _] => destruct c
  | |- context [match ?l with [] => _ | _ :: _ => _ end] => destruct l
  | |- Raise _ = Raise _ -> _ =>
      let H := fresh in intros H; inversion H; reflexivity
  | |- Ok _ = Raise _ -> _ => discriminate
  end.

Lemma decode_raises_bounded (n : nat) :
  forall (b : py_bytes) (e : exn),
    (length b <= n)%nat -> Py.decode b = Raise e -> e = UnicodeDecodeError.
Proof.
  induction n as [|n IH]; intros b e Hlen.
  - destruct b; [discriminate|simpl in Hlen; lia].
  - destruct b as [|b0 r0]; [discriminate|].
    assert (Hrec : forall r, (length r <= n)%nat ->
              forall c, match Py.decode r with
                        | Ok s => Ok (c :: s)
                        | Raise e0 => Raise e0
                        end = Raise e -> e = UnicodeDecodeError).
    { intros r Hr c. specialize (IH r e Hr).
      destruct (Py.decode r); [discriminate|].
      intros H; inversion H; subst. now apply IH. }
    simpl in Hlen. cbn [Py.decode].
    repeat decode_step; try (apply Hrec; simpl in Hlen; lia).
Qed.

Lemma decode_raises (b : py_bytes) (e : exn) :
  Py.decode b = Raise e -> e = UnicodeDecodeError.
Proof. apply (decode_raises_bounded (length b)). lia. Qed.

Lemma decode_each_raises (chunks : list py_bytes) (e : exn) :
  decode_each chunks = Raise e -> e = UnicodeDecodeError.
Proof.
  induction chunks as [|b chunks IH]; simpl; [discriminate|].
  destruct (Py.decode b) eqn:Hb.
  - destruct (decode_each chunks); [discriminate|].
    intros H; inversion H; subst. now apply IH.
  - intros H; inversion H; subst. now apply decode_raises in Hb.
Qed.

Lemma reconstruct_raises (chunks : list py_bytes) (text : py_str) (e : exn) :
  reconstruct chunks text = Raise e -> e = UnicodeDecodeError.
Proof.
  unfold reconstruct. destruct (decode_each chunks) eqn:H; [discriminate|].
  intros H'; inversion H'; subst. now apply decode_each_raises in H.
Qed.

(** ** No chunk is empty *)

Lemma divide_chunks_lengths (data : py_bytes) :
  exists chunks,
    divide_chunks data 16 = Ok chunks /\
    Forall (fun c => (1 <= length c <= 16)%nat) chunks /\
    (data = [] -> chunks = []).
Proof.
  pose proof (chunk_count_bounds (len data) 16
                ltac:(unfold len; lia) ltac:(lia)) as [Hb Hpos].
  pose proof (divide_chunks_blocks data 16 ltac:(lia)) as Hdiv.
  change (Z.to_nat 16) with 16%nat in Hdiv.
  set (n := Z.to_nat (chunk_count (len data) 16)) in *.
  assert (Hn : Z.of_nat n = chunk_count (len data) 16) by (unfold n; lia).
  rewrite <- Hn in Hb. unfold len in Hb. clearbody n.
  eexists. split; [exact Hdiv|]. split.
  - apply Forall_forall. intros c Hin.
    apply in_map_iff in Hin. destruct Hin as (k & <- & Hin).
    apply in_seq in Hin. rewrite length_block. lia.
  - intros ->. cbn [length] in Hb. destruct n; [reflexivity|lia].
Qed.

Lemma divide_chunks_nonempty (data : py_bytes) :
  exists chunks,
    divide_chunks data 16 = Ok chunks /\
    Forall (fun c => c <> []) chunks /\
    (data = [] -> chunks = []).
Proof.
  destruct (divide_chunks_lengths data) as (chunks & Hdiv & Hlen & Hnil).
  exists chunks. split; [exact Hdiv|]. split; [|exact Hnil].
  eapply Forall_impl; [|exact Hlen].
  intros c Hc ->. simpl in Hc. lia.
Qed.

Section Session.

Variable E : env.
Variables (port : py_str) (baudrate : Z).

(** The loop over the chunks goes through when no chunk is empty. *)
Lemma send_chunks_returns (items : list (Z * py_bytes)) :
  Forall (fun it => snd it <> []) items ->
  forall output_chunks w,
  exists answers w',
    send_chunks E port baudrate items output_chunks w = (Ok answers, w').
Proof.
  induction 1 as [|[i c] items Hc _ IH]; intros output_chunks w;
    cbn [send_chunks].
  - eauto.
  - rewrite write_chunk_calls by exact Hc.
    match goal with |- context [read_chunk ?a ?b ?c ?d] =>
      destruct (read_chunk a b c d) as [answer w1]
    end.
    apply IH.
Qed.

Lemma session_round_never_unbound (input_text : py_str) (w : world) :
  fst (session_round E port baudrate input_text w) <> Raise UnboundLocalError.
Proof.
  unfold session_round.
  destruct (Py.encode input_text) as [input_bytes|e] eqn:Henc.
  - destruct (divide_chunks_nonempty input_bytes) as (chunks & -> & Hne & _).
    match goal with |- context [send_chunks _ _ _ ?items ?o ?w0] =>
      destruct (send_chunks_returns items) with (output_chunks := o) (w := w0)
        as (answers & w' & ->)
    end.
    + apply Forall_forall. intros [i c] Hin. simpl.
      apply in_combine_r in Hin.
      rewrite Forall_forall in Hne. now apply Hne.
    + destruct (reconstruct answers input_text) eqn:Hrec; simpl.
      * discriminate.
      * apply reconstruct_raises in Hrec. subst. discriminate.
  - simpl. apply encode_raises in Henc. subst. discriminate.
Qed.

Lemma session_loop_never_unbound (lines : console) (w : world) :
  fst (session_loop E port baudrate lines w) <> UnboundLocalError.
Proof.
  revert w; induction lines as [|input_text rest IH]; intros w; simpl.
  - discriminate.
  - set (w0 := emit (Stdin input_text) _).
    pose proof (session_round_never_unbound input_text w0) as H.
    destruct (session_round _ _ _ _ _) as [[out|e] w1]; simpl in *.
    + apply IH.
    + congruence.
Qed.

End Session.

(** ** Hexadecimal text *)

Lemma hexdigit_inj (a b : Z) : Py.hexdigit a = Py.hexdigit b -> a = b.
Proof.
  unfold Py.hexdigit.
  destruct (Z.ltb_spec a 10); destruct (Z.ltb_spec b 10); lia.
Qed.

Lemma hex_inj (a b : py_bytes) : Py.hex a = Py.hex b -> a = b.
Proof.
  revert b; induction a as [|x a IH]; intros [|y b]; simpl;
    try discriminate; [reflexivity|].
  intros H. injection H as Hhi Hlo Hrest.
  apply hexdigit_inj in Hhi, Hlo.
  f_equal; [|now apply IH].
  rewrite (Z.div_mod x 16), (Z.div_mod y 16) by lia. congruence.
Qed.

Lemma fromhex_raises_bounded (n : nat) :
  forall (s : py_str) (e : exn),
    (length s <= n)%nat -> Py.fromhex s = Raise e -> e = ValueError.
Proof.
  induction n as [|n IH]; intros s e Hlen.
  - destruct s; [discriminate|simpl in Hlen; lia].
  - destruct s as [|c r]; [discriminate|]. simpl in Hlen. cbn [Py.fromhex].
    destruct (Py.is_hex_space c); [apply IH; lia|].
    destruct (Py.hexval c); [|now intros H; inversion H].
    destruct r as [|d r']; [now intros H; inversion H|].
    destruct (Py.hexval d); [|now intros H; inversion H].
    specialize (IH r' e ltac:(simpl in Hlen; lia)).
    destruct (Py.fromhex r'); [discriminate|].
    intros H; inversion H; subst. now apply IH.
Qed.

Lemma fromhex_raises (s : py_str) (e : exn) :
  Py.fromhex s = Raise e -> e = ValueError.
Proof. apply (fromhex_raises_bounded (length s)). lia. Qed.

Lemma fromhex_not_hex_bounded (n : nat) :
  forall s : py_str,
    (length s <= n)%nat -> Exists not_hex s -> Py.fromhex s = Raise ValueError.
Proof.
  induction n as [|n IH]; intros s Hlen Hbad.
  - destruct s; [inversion Hbad|simpl in Hlen; lia].
  - destruct s as [|c r]; [inversion Hbad|]. simpl in Hlen. cbn [Py.fromhex].
    destruct (Py.is_hex_space c) eqn:Hsp.
    { apply IH; [lia|].
      inversion Hbad as [? ? [_ Hc]|]; subst; [congruence|assumption]. }
    destruct (Py.hexval c) eqn:Hc; [|reflexivity].
    destruct r as [|d r']; [reflexivity|].
    destruct (Py.hexval d) eqn:Hd; [|reflexivity].
    rewrite IH; [reflexivity|simpl in Hlen; lia|].
    inversion Hbad as [? ? [Hc' _]|? ? Hr]; subst; [congruence|].
    inversion Hr as [? ? [Hd' _]|]; subst; [congruence|assumption].
Qed.

Lemma fromhex_not_hex (s : py_str) :
  Exists not_hex s -> Py.fromhex s = Raise ValueError.
Proof. apply (fromhex_not_hex_bounded (length s)). lia. Qed.

(** ** The self-test script *)

Lemma input_data_hex : Py.hex payload = UartInterfaceLoopback.input_data.
Proof. reflexivity. Qed.

Lemma verdict_equal (output_bytes : py_bytes) :
  output_bytes = payload ->
  UartInterfaceLoopback.verdict UartInterfaceLoopback.input_data output_bytes
  = lit "SUCCES".
Proof.
  intros ->. unfold UartInterfaceLoopback.verdict, Py.str_eq.
  destruct (list_eq_dec Z.eq_dec UartInterfaceLoopback.input_data
              (Py.hex payload)) as [_|Hne];
    [reflexivity|].
  now destruct Hne.
Qed.

Lemma verdict_different (output_bytes : py_bytes) :
  output_bytes <> payload ->
  UartInterfaceLoopback.verdict UartInterfaceLoopback.input_data output_bytes
  = lit "FAIL".
Proof.
  intros Hne. unfold UartInterfaceLoopback.verdict, Py.str_eq.
  destruct (list_eq_dec Z.eq_dec UartInterfaceLoopback.input_data
              (Py.hex output_bytes)) as [Heq|_];
    [|reflexivity].
  destruct Hne. apply hex_inj. now rewrite input_data_hex.
Qed.

(** When [main] returns, the script prints what was received, then the
    verdict on it, and ends. *)
Lemma script_verdict (E : env) (lines ls : console) (output_bytes : py_bytes)
  (w : world) :
  UartInterfaceLoopback.main E payload lines start = (Ok output_bytes, ls, w) ->
  UartInterfaceLoopback.script E lines
  = (Ok tt,
     print (UartInterfaceLoopback.verdict UartInterfaceLoopback.input_data
              output_bytes)
       (print_end ([newline] ++ lit "Loopback test status: " ++ [tab]) []
          (print (lit "Received data: " ++ [tab; tab] ++ Py.hex output_bytes)
             w))).
Proof.
  intros Hmain.
  unfold UartInterfaceLoopback.script, UartInterfaceLoopback.script_with.
  change (len UartInterfaceLoopback.input_data =? 32) with true.
  change (Py.fromhex UartInterfaceLoopback.input_data) with (Ok payload).
  cbn [negb]. now rewrite Hmain.
Qed.

(** A literal of the wrong length stops the script at once. *)
Lemma script_rejects_length (E : env) (literal : py_str) (lines : console) :
  len literal <> 32 ->
  UartInterfaceLoopback.script_with E literal lines
  = (Raise SystemExit, print UartInterfaceLoopback.length_message start).
Proof.
  intros Hlen. unfold UartInterfaceLoopback.script_with.
  destruct (Z.eqb_spec (len literal) 32); [contradiction|reflexivity].
Qed.

(** So does a literal of thirty-two characters, one of which is neither a
    hexadecimal digit nor white space. *)
Lemma script_rejects_not_hex (E : env) (literal : py_str) (lines : console) :
  len literal = 32 -> Exists not_hex literal ->
  UartInterfaceLoopback.script_with E literal lines
  = (Raise SystemExit, print UartInterfaceLoopback.format_message start).
Proof.
  intros Hlen Hbad. unfold UartInterfaceLoopback.script_with.
  rewrite Hlen, (fromhex_not_hex literal Hbad). reflexivity.
Qed.

(** ** How a call extends the trace *)

Lemma extends_refl (P : event -> Prop) (w : world) : extends P 0 w w.
Proof.
  split; [lia|]. exists []. now rewrite app_nil_r.
Qed.

Lemma extends_trans (P : event -> Prop) (n m : nat) (w1 w2 w3 : world) :
  extends P n w1 w2 -> extends P m w2 w3 -> extends P (n + m) w1 w3.
Proof.
  intros [Hn (e1 & H1 & F1)] [Hm (e2 & H2 & F2)]. split; [lia|].
  exists (e1 ++ e2). rewrite H2, H1, app_assoc. split; [reflexivity|].
  apply Forall_app. now split.
Qed.

Lemma extends_weaken (P Q : event -> Prop) (n : nat) (w w' : world) :
  (forall e, P e -> Q e) -> extends P n w w' -> extends Q n w w'.
Proof.
  intros HPQ [Hn (evs & H & F)]. split; [exact Hn|].
  exists evs. split; [exact H|]. eapply Forall_impl; eauto.
Qed.

Lemma extends_emits (P : event -> Prop) (evs : list event) (w : world) :
  Forall P evs -> extends P 0 w (emits evs w).
Proof.
  intros F. split; [simpl; lia|]. exists evs. now split.
Qed.

Lemma extends_emit (P : event -> Prop) (e : event) (w : world) :
  P e -> extends P 0 w (emit e w).
Proof. intros H. apply (extends_emits P [e]). now constructor. Qed.

Lemma extends_added (P : event -> Prop) (n : nat) (w w' : world) :
  extends P n w w' -> Forall P (added w w').
Proof.
  intros [_ (evs & H & F)]. unfold added.
  rewrite H, skipn_app, skipn_all, Nat.sub_diag. exact F.
Qed.

(** ** The enumeration *)

Lemma fold_probe (sys : system) (ports found : list py_str)
  (evs : list event) :
  fold_left (probe sys) ports (found, evs)
  = (found ++ filter (openable sys) ports,
     evs ++ flat_map (probe_events sys) ports).
Proof.
  revert found evs; induction ports as [|p ports IH]; intros found evs.
  - simpl. now rewrite !app_nil_r.
  - cbn [fold_left flat_map filter]. unfold probe at 2, probe_events at 1.
    cbn [fst snd].
    destruct (openable sys p); rewrite IH; now rewrite <- !app_assoc.
Qed.

(** [serial_ports] keeps, in order, the candidates that open. *)
Lemma serial_ports_filter (sys : system) :
  serial_ports sys
  = match candidates sys with
    | Raise e => (Raise e, [])
    | Ok ports =>
        (Ok (filter (openable sys) ports), flat_map (probe_events sys) ports)
    end.
Proof.
  unfold serial_ports. destruct (candidates sys); [|reflexivity].
  now rewrite fold_probe.
Qed.

Lemma serial_ports_probes (sys : system) :
  Forall is_probe (snd (serial_ports sys)).
Proof.
  rewrite serial_ports_filter. destruct (candidates sys) as [ports|e]; simpl.
  - induction ports as [|p ports IH]; simpl; [constructor|].
    apply Forall_app. split; [|exact IH].
    unfold probe_events. destruct (openable sys p); repeat constructor.
  - constructor.
Qed.

Lemma call_serial_ports_spec (E : env) (w : world) :
  call_serial_ports E w
  = (enumeration E (enum_calls w),
     {| enum_calls := S (enum_calls w);
        trace := trace w ++ snd (serial_ports (system_at E (enum_calls w))) |}).
Proof.
  unfold call_serial_ports, enumeration.
  now destruct (serial_ports (system_at E (enum_calls w))).
Qed.

Lemma call_serial_ports_extends (E : env) (w : world) :
  extends is_probe 1 w (snd (call_serial_ports E w)).
Proof.
  rewrite call_serial_ports_spec. split; [simpl; lia|].
  eexists. split; [reflexivity|]. apply serial_ports_probes.
Qed.

(** ** Indexing *)


Lemma index_from_end {A : Type} (l : list A) (i : Z) (d : A) :
  - len l <= i < 0 -> Py.index l i = Ok (nth (Z.to_nat (i + len l)) l d).
Proof.
  intros Hi. unfold Py.index, len in *.
  destruct (Z.ltb_spec i 0); [|lia].
  destruct (Z.leb_spec 0 (i + Z.of_nat (length l))); [|lia].
  destruct (Z.ltb_spec (i + Z.of_nat (length l)) (Z.of_nat (length l))); [|lia].
  cbn [andb]. rewrite (nth_error_nth' l d) by lia. reflexivity.
Qed.


Lemma index_member {A : Type} (l : list A) (i : Z) (x : A) :
  Py.index l i = Ok x -> In x l.
Proof.
  unfold Py.index.
  destruct (_ && _); [|discriminate].
  destruct (nth_error l _) eqn:Hn; [|discriminate].
  intros H; inversion H; subst. eapply nth_error_In; eauto.
Qed.

Lemma index_raises {A : Type} (l : list A) (i : Z) (e : exn) :
  Py.index l i = Raise e -> e = IndexError.
Proof.
  unfold Py.index.
  destruct (_ && _); [destruct (nth_error l _)|]; intros H; now inversion H.
Qed.

Lemma int_raises (s : py_str) (e : exn) : Py.int s = Raise e -> e = ValueError.
Proof.
  unfold Py.int, Py.int_of_ascii. cbv zeta.
  destruct (match Py.skip_spaces (Py.to_ascii s) with
            | c :: r => _
            | [] => _
            end) as [sign body].
  destruct (match body with c :: _ => c =? 95 | [] => false end);
    [now intros H; inversion H|].
  destruct (Py.scan_digits 0 0 false body) as [[[n digits] rest]|];
    [|now intros H; inversion H].
  destruct (4300 <? digits); [now intros H; inversion H|].
  destruct (digits =? 0); [now intros H; inversion H|].
  destruct (Py.skip_spaces rest); [discriminate|now intros H; inversion H].
Qed.

(** ** The menu *)

Lemma for_each_extends {A : Type} (P : event -> Prop)
  (body : A -> world -> world) (items : list A) :
  (forall x w, extends P 0 w (body x w)) ->
  forall last w, extends P 0 w (snd (for_each items body last w)).
Proof.
  intros Hbody. induction items as [|x items IH]; intros last w; simpl.
  - apply extends_refl.
  - apply (extends_trans P 0 0 w (body x w)); [apply Hbody|apply IH].
Qed.

Lemma print_extends (s : py_str) (w : world) :
  extends is_menu_event 0 w (print s w).
Proof. apply extends_emit. exact I. Qed.

Lemma print_ports_extends (ports : list py_str) (w : world) :
  extends is_menu_event 0 w (print_ports ports w).
Proof.
  unfold print_ports. apply for_each_extends.
  intros [i port] w0. apply print_extends.
Qed.

Lemma menu_asks_extends (ports : list py_str) (line : py_str) (w : world) :
  extends is_menu_event 0 w (menu_asks ports line w).
Proof.
  unfold menu_asks.
  apply (extends_trans is_menu_event 0 0 _
           (print (lit "Choose a serial port:") w));
    [apply print_extends|].
  apply (extends_trans is_menu_event 0 0 _ (print_ports ports
                                  (print (lit "Choose a serial port:") w)));
    [apply print_ports_extends|].
  apply (extends_trans is_menu_event 0 0 _ (emit (Prompt []) (print_ports ports
                                  (print (lit "Choose a serial port:") w))));
    apply extends_emit; exact I.
Qed.

(** One pass of the menu loop, by the line read. *)
Lemma menu_loop_not_integer (ports : list py_str) (line : py_str)
  (rest : console) (w : world) :
  Py.int line = Raise ValueError ->
  menu_loop ports (line :: rest) w
  = menu_loop ports rest (print wrong_type (menu_asks ports line w)).
Proof. intros H. cbn [menu_loop]. now rewrite H. Qed.



Lemma menu_loop_index_from_end (ports : list py_str) (line : py_str)
  (rest : console) (w : world) (resp : Z) :
  Py.int line = Ok resp -> - len ports <= resp < 0 ->
  menu_loop ports (line :: rest) w
  = (Ok (nth (Z.to_nat (resp + len ports)) ports []), rest,
     menu_asks ports line w).
Proof.
  intros H Hin. cbn [menu_loop].
  now rewrite H, (index_from_end ports resp [] Hin).
Qed.

(** Whatever is typed, the menu loop only uses the console, and a port it
    returns is one of the ports shown. *)
Lemma menu_loop_spec (ports : list py_str) (lines : console) :
  forall w,
    extends is_menu_event 0 w (snd (menu_loop ports lines w)) /\
    (forall p, fst (fst (menu_loop ports lines w)) = Ok p -> In p ports) /\
    (forall e, fst (fst (menu_loop ports lines w)) = Raise e -> e = EOFError) /\
    (exists used, lines = used ++ snd (fst (menu_loop ports lines w))).
Proof.
  induction lines as [|line rest IH]; intros w.
  - cbn [menu_loop fst snd]. split; [|split; [|split]].
    + apply (extends_trans is_menu_event 0 0 _
               (print_ports ports (print (lit "Choose a serial port:") w))).
      * apply (extends_trans is_menu_event 0 0 _
                 (print (lit "Choose a serial port:") w));
          [apply print_extends|apply print_ports_extends].
      * apply extends_emit; exact I.
    + discriminate.
    + intros e H; now inversion H.
    + now exists [].
  - pose proof (menu_asks_extends ports line w) as Hask.
    assert (Hloop : forall s,
      let w1 := print s (menu_asks ports line w) in
      extends is_menu_event 0 w (snd (menu_loop ports rest w1)) /\
      (forall p, fst (fst (menu_loop ports rest w1)) = Ok p -> In p ports) /\
      (forall e,
         fst (fst (menu_loop ports rest w1)) = Raise e -> e = EOFError) /\
      (exists used,
         line :: rest = used ++ snd (fst (menu_loop ports rest w1)))).
    { intros s w1. destruct (IH w1) as (Hext & Hin & Hraise & used & Hused).
      split; [|split; [|split]]; auto.
      - apply (extends_trans is_menu_event 0 0 _ w1); [|exact Hext].
        apply (extends_trans is_menu_event 0 0 _ (menu_asks ports line w));
          [exact Hask|apply print_extends].
      - exists (line :: used). simpl. now rewrite <- Hused. }
    destruct (Py.int line) as [resp|e] eqn:Hint.
    + destruct (Py.index ports resp) as [port|e] eqn:Hidx.
      * cbn [menu_loop]. rewrite Hint, Hidx. cbn [fst snd].
        split; [|split; [|split]]; auto.
        -- intros p H; inversion H; subst. eapply index_member; eauto.
        -- discriminate.
        -- now exists [line].
      * pose proof (index_raises _ _ _ Hidx); subst e.
        cbn [menu_loop]. rewrite Hint, Hidx. apply Hloop.
    + pose proof (int_raises _ _ Hint); subst e.
      rewrite menu_loop_not_integer by exact Hint. apply Hloop.
Qed.

(** ** Waiting for a port *)

Lemma retry_prompts_app (a b : list event) :
  retry_prompts (a ++ b) = (retry_prompts a + retry_prompts b)%nat.
Proof. unfold retry_prompts. now rewrite filter_app, length_app. Qed.

Lemma retry_prompts_none (P : event -> Prop) (evs : list event) :
  (forall e, P e -> is_retry e = false) -> Forall P evs ->
  retry_prompts evs = 0%nat.
Proof.
  intros HP. induction 1 as [|e evs He _ IH]; [reflexivity|].
  unfold retry_prompts in *. simpl. now rewrite (HP e He).
Qed.

Lemma probe_not_retry (e : event) : is_probe e -> is_retry e = false.
Proof. destruct e; simpl; try reflexivity; contradiction. Qed.

Lemma menu_event_not_retry (e : event) : is_menu_event e -> is_retry e = false.
Proof.
  destruct e as [| p | | | | | | | ]; simpl; try reflexivity; try contradiction.
  destruct p; [reflexivity|contradiction].
Qed.

Lemma steps_trans (n1 k1 n2 k2 : nat) (w1 w2 w3 : world) :
  steps n1 k1 w1 w2 -> steps n2 k2 w2 w3 -> steps (n1 + n2) (k1 + k2) w1 w3.
Proof.
  intros [Hn1 (e1 & H1 & C1)] [Hn2 (e2 & H2 & C2)]. split; [lia|].
  exists (e1 ++ e2). rewrite H2, H1, app_assoc, retry_prompts_app. auto.
Qed.

Lemma steps_of_extends (P : event -> Prop) (n : nat) (w w' : world) :
  (forall e, P e -> is_retry e = false) -> extends P n w w' -> steps n 0 w w'.
Proof.
  intros HP [Hn (evs & H & F)]. split; [exact Hn|].
  exists evs. split; [exact H|]. eapply retry_prompts_none; eauto.
Qed.

Lemma steps_added (n k : nat) (w w' : world) :
  steps n k w w' -> retry_prompts (added w w') = k.
Proof.
  intros [_ (evs & H & C)]. unfold added.
  now rewrite H, skipn_app, skipn_all, Nat.sub_diag.
Qed.

Lemma steps_retry (line : py_str) (w : world) :
  steps 0 1 w (emit (Stdin line) (emit (Prompt retry_prompt) w)).
Proof.
  split; [simpl; lia|]. exists [Prompt retry_prompt; Stdin line].
  split; [|reflexivity]. simpl. now rewrite <- app_assoc.
Qed.

Lemma steps_enumeration (E : env) (w : world) :
  steps 1 0 w (snd (call_serial_ports E w)).
Proof.
  eapply steps_of_extends; [apply probe_not_retry|].
  apply call_serial_ports_extends.
Qed.

Lemma wait_for_ports_found (E : env) (ports : list py_str) (lines : console)
  (w : world) :
  ports <> [] -> wait_for_ports E ports lines w = (Ok ports, lines, w).
Proof.
  intros Hne. destruct ports as [|p ports]; [congruence|].
  destruct lines; reflexivity.
Qed.

Section Waiting.

Variable E : env.
Variable ports : list py_str.
Hypothesis ports_found : ports <> [].

(** After [k] more empty enumerations and then [ports], the waiting loop
    has asked [k + 1] times and taken [k + 1] lines. *)
Lemma wait_for_ports_spec (k : nat) :
  forall (lines : console) (w : world),
    (forall j, (j < k)%nat -> enumeration E (enum_calls w + j) = Ok []) ->
    enumeration E (enum_calls w + k) = Ok ports ->
    (k < length lines)%nat ->
    exists w',
      wait_for_ports E [] lines w = (Ok ports, skipn (S k) lines, w') /\
      steps (S k) (S k) w w'.
Proof.
  induction k as [|k IH]; intros lines w Hempty Hfound Hlines;
    (destruct lines as [|line rest]; [simpl in Hlines; lia|]);
    cbn [wait_for_ports]; change (len (@nil py_str) =? 0) with true;
    cbv iota;
    set (w1 := emit (Stdin line) (emit (Prompt retry_prompt) w));
    pose proof (steps_retry line w) as Hw1; fold w1 in Hw1;
    pose proof (steps_enumeration E w1) as Hw2;
    rewrite call_serial_ports_spec in *; cbn [snd] in Hw2;
    replace (enum_calls w1) with (enum_calls w) in * by reflexivity.
  - rewrite Nat.add_0_r in Hfound. rewrite Hfound.
    rewrite wait_for_ports_found by exact ports_found.
    eexists. split; [reflexivity|].
    apply (steps_trans 0 1 1 0 w w1); assumption.
  - assert (H0 : enumeration E (enum_calls w) = Ok []).
    { rewrite <- (Nat.add_0_r (enum_calls w)). apply Hempty. lia. }
    rewrite H0.
    match goal with |- context [wait_for_ports E [] rest ?w0] =>
      destruct (IH rest w0) as (w' & Hwait & Hsteps)
    end.
    + intros j Hj. cbn [enum_calls].
      replace (S (enum_calls w) + j)%nat with (enum_calls w + S j)%nat by lia.
      apply Hempty. lia.
    + cbn [enum_calls].
      replace (S (enum_calls w) + k)%nat with (enum_calls w + S k)%nat by lia.
      exact Hfound.
    + simpl in Hlines. lia.
    + exists w'. split; [exact Hwait|].
      replace (S (S k)) with (0 + 1 + S k)%nat by lia.
      replace (S (S k)) with (1 + 0 + S k)%nat at 2 by lia.
      eapply steps_trans; [|exact Hsteps].
      eapply steps_trans; eassumption.
Qed.

End Waiting.

(** While every enumeration is empty the waiting loop uses up the input and
    ends in [EOFError]. *)
Lemma wait_for_ports_eof (E : env) (lines : console) :
  forall w : world,
    (forall j, (j < length lines)%nat ->
       enumeration E (enum_calls w + j) = Ok []) ->
    fst (fst (wait_for_ports E [] lines w)) = Raise EOFError.
Proof.
  induction lines as [|line rest IH]; intros w Hempty; [reflexivity|].
  cbn [wait_for_ports]. change (len (@nil py_str) =? 0) with true. cbv iota.
  rewrite call_serial_ports_spec. cbn [enum_calls emit].
  assert (H0 : enumeration E (enum_calls w) = Ok []).
  { rewrite <- (Nat.add_0_r (enum_calls w)). apply Hempty. simpl. lia. }
  rewrite H0.
  apply IH. intros j Hj. cbn [enum_calls].
  replace (S (enum_calls w) + j)%nat with (enum_calls w + S j)%nat by lia.
  apply Hempty. simpl. lia.
Qed.

Lemma session_menu_unfold (E : env) (lines : console) (w : world) :
  UartInterface.serial_port_menu E lines w = menu_with menu_loop E lines w.
Proof. reflexivity. Qed.

Lemma loopback_menu_unfold (E : env) (lines : console) (w : world) :
  UartInterfaceLoopback.serial_port_menu E lines w
  = menu_with choose_or_take_the_only_one E lines w.
Proof. reflexivity. Qed.

Section Menus.

Variable E : env.
Variable k : nat.
Variable lines : console.
Variable w : world.

Hypothesis empty_before :
  forall j, (j < k)%nat -> enumeration E (enum_calls w + j) = Ok [].

(** With fewer lines of input than empty enumerations, the waiting loop
    uses up the input. *)
Lemma menu_gives_up
  (choose : list py_str -> console -> world -> result py_str * console * world)
  :
  (length lines < k)%nat -> gave_up (menu_with choose E lines w).
Proof.
  intros Hshort. unfold gave_up, menu_with.
  rewrite call_serial_ports_spec.
  set (w0 := {| enum_calls := S (enum_calls w); trace := _ |}).
  assert (H0 : enumeration E (enum_calls w) = Ok []).
  { rewrite <- (Nat.add_0_r (enum_calls w)). apply empty_before. lia. }
  rewrite H0.
  pose proof (wait_for_ports_eof E lines w0) as Heof.
  destruct (wait_for_ports E [] lines w0) as [[r ls] w1].
  cbn [fst] in Heof. rewrite Heof; [reflexivity|].
  intros j Hj. cbn [enum_calls w0].
  replace (S (enum_calls w) + j)%nat with (enum_calls w + S j)%nat by lia.
  apply empty_before. lia.
Qed.

Variable ports : list py_str.
Hypothesis found_then : enumeration E (enum_calls w + k) = Ok ports.
Hypothesis ports_found : ports <> [].
Hypothesis enough_input : (k <= length lines)%nat.

(** The two menus differ only in what follows the waiting loop. *)
Lemma menu_goes_on
  (choose : list py_str -> console -> world -> result py_str * console * world)
  :
  (forall ls w0,
     let '(r, ls', w') := choose ports ls w0 in
     steps 0 0 w0 w' /\ (exists used, ls = used ++ ls') /\
     (forall p, r = Ok p -> In p ports)) ->
  went_on k ports lines w (menu_with choose E lines w).
Proof.
  intros Hchoose. unfold menu_with.
  pose proof (steps_enumeration E w) as Hfirst.
  rewrite call_serial_ports_spec in *. cbn [snd] in Hfirst.
  set (w0 := {| enum_calls := S (enum_calls w); trace := _ |}) in *.
  destruct k as [|k'].
  - (* ports at the first enumeration *)
    rewrite Nat.add_0_r in found_then. rewrite found_then.
    rewrite wait_for_ports_found by exact ports_found.
    specialize (Hchoose lines w0).
    destruct (choose ports lines w0) as [[r ls'] w'].
    destruct Hchoose as (Hsteps & Hused & Hin).
    pose proof (steps_trans _ _ _ _ _ _ _ Hfirst Hsteps) as Hall.
    split; [exact (steps_added _ _ _ _ Hall)|].
    split; [destruct Hall as [-> _]; lia|].
    split; assumption.
  - assert (H0 : enumeration E (enum_calls w) = Ok []).
    { rewrite <- (Nat.add_0_r (enum_calls w)). apply empty_before. lia. }
    rewrite H0.
    destruct (wait_for_ports_spec E ports ports_found k' lines w0)
      as (w1 & Hwait & Hsteps).
    + intros j Hj. cbn [enum_calls w0].
      replace (S (enum_calls w) + j)%nat with (enum_calls w + S j)%nat by lia.
      apply empty_before. lia.
    + cbn [enum_calls w0].
      replace (S (enum_calls w) + k')%nat
        with (enum_calls w + S k')%nat by lia.
      exact found_then.
    + lia.
    + rewrite Hwait. specialize (Hchoose (skipn (S k') lines) w1).
      destruct (choose ports (skipn (S k') lines) w1) as [[r ls'] w'].
      destruct Hchoose as (Hlast & Hused & Hin).
      pose proof (steps_trans _ _ _ _ _ _ _
                    (steps_trans _ _ _ _ _ _ _ Hfirst Hsteps) Hlast) as Hall.
      split; [rewrite (steps_added _ _ _ _ Hall); lia|].
      split; [destruct Hall as [-> _]; lia|].
      split; assumption.
Qed.

Lemma menu_loop_steps (ls : console) (w0 : world) :
  let '(r, ls', w') := menu_loop ports ls w0 in
  steps 0 0 w0 w' /\ (exists used, ls = used ++ ls') /\
  (forall p, r = Ok p -> In p ports).
Proof.
  destruct (menu_loop_spec ports ls w0) as (Hext & Hin & _ & Hused).
  destruct (menu_loop ports ls w0) as [[r ls'] w']. cbn [fst snd] in *.
  split; [|split; assumption].
  eapply steps_of_extends; [apply menu_event_not_retry|exact Hext].
Qed.

Lemma session_menu_goes_on :
  went_on k ports lines w (UartInterface.serial_port_menu E lines w).
Proof.
  rewrite session_menu_unfold. apply menu_goes_on. apply menu_loop_steps.
Qed.

Lemma loopback_menu_goes_on :
  went_on k ports lines w (UartInterfaceLoopback.serial_port_menu E lines w).
Proof.
  rewrite loopback_menu_unfold. apply menu_goes_on.
  intros ls w0. unfold choose_or_take_the_only_one.
  destruct (len ports =? 1).
  - destruct (Py.index ports 0) as [port|e] eqn:Hidx.
    + split; [|split].
      * eapply steps_of_extends; [apply menu_event_not_retry|].
        apply print_extends.
      * now exists [].
      * intros p H; inversion H; subst. eapply index_member; eauto.
    + split; [|split].
      * eapply steps_of_extends; [apply menu_event_not_retry|].
        apply extends_refl.
      * now exists [].
      * discriminate.
  - apply menu_loop_steps.
Qed.

End Menus.

(** ** Before the exchange *)

Lemma menu_event_prepares (e : event) : is_menu_event e -> is_preparation e.
Proof.
  destruct e; simpl; try tauto;
    match goal with |- context [match ?x with _ => _ end] => destruct x end;
    tauto.
Qed.

Lemma probe_prepares (e : event) : is_probe e -> is_preparation e.
Proof.
  destruct e; simpl; try tauto;
    match goal with |- context [match ?x with _ => _ end] => destruct x end;
    tauto.
Qed.

Lemma wait_for_ports_prepares (E : env) (lines : console) :
  forall (available_ports : list py_str) (w : world),
  exists n,
    extends is_preparation n w
      (snd (wait_for_ports E available_ports lines w)).
Proof.
  induction lines as [|line rest IH]; intros available_ports w;
    cbn [wait_for_ports]; destruct (len available_ports =? 0); cbn [snd];
    try (exists 0%nat; apply extends_refl).
  - exists 0%nat. apply extends_emit. exact I.
  - set (w1 := emit (Stdin line) (emit (Prompt retry_prompt) w)).
    assert (H1 : extends is_preparation 0 w w1).
    { unfold w1. rewrite !emit_emits, emits_emits.
      apply extends_emits. repeat constructor. }
    pose proof (extends_weaken _ _ _ _ _ probe_prepares
                  (call_serial_ports_extends E w1)) as H2.
    destruct (call_serial_ports E w1) as [[ports|e] w2]; cbn [snd] in *.
    + destruct (IH ports w2) as (n & H3). exists (0 + 1 + n)%nat.
      eapply extends_trans; [|exact H3].
      eapply extends_trans; eassumption.
    + exists (0 + 1)%nat. eapply extends_trans; eassumption.
Qed.

Lemma loopback_menu_prepares (E : env) (lines : console) (w : world) :
  exists n,
    extends is_preparation n w
      (snd (UartInterfaceLoopback.serial_port_menu E lines w)).
Proof.
  unfold UartInterfaceLoopback.serial_port_menu,
    UartInterfaceLoopback.call_serial_ports,
    UartInterfaceLoopback.wait_for_ports, UartInterfaceLoopback.menu_loop.
  pose proof (extends_weaken _ _ _ _ _ probe_prepares
                (call_serial_ports_extends E w)) as H1.
  destruct (call_serial_ports E w) as [[ports|e] w1]; cbn [snd] in *;
    [|eauto].
  destruct (wait_for_ports_prepares E lines ports w1) as (n & H2).
  destruct (wait_for_ports E ports lines w1) as [[[found|e] ls] w2];
    cbn [snd] in *.
  - assert (exists w3,
              snd (if len found =? 1
                   then match Py.index found 0 with
                        | Ok port =>
                            (Ok port, ls,
                             print (lit "Using only available port "
                                    ++ [dquote] ++ port ++ [dquote]) w2)
                        | Raise e => (Raise e, ls, w2)
                        end
                   else menu_loop found ls w2) = w3 /\
              extends is_preparation 0 w2 w3) as (w3 & -> & H3).
    { destruct (len found =? 1).
      - destruct (Py.index found 0); eexists; (split; [reflexivity|]).
        + eapply extends_weaken; [apply menu_event_prepares|].
          apply print_extends.
        + apply extends_refl.
      - eexists. split; [reflexivity|].
        eapply extends_weaken; [apply menu_event_prepares|].
        apply menu_loop_spec. }
    exists (1 + n + 0)%nat.
    eapply extends_trans; [|exact H3]. eapply extends_trans; eassumption.
  - exists (1 + n)%nat. eapply extends_trans; eassumption.
Qed.

(** ** The exchange of the self-test *)

Lemma exchange_spec (E : env) (port : py_str) (baudrate : Z)
  (input_bytes : py_bytes) (w : world) :
  let output_bytes :=
    device E (trace w ++ [Open port (Some baudrate);
                          Write (PyBytes input_bytes)]) in
  UartInterfaceLoopback.exchange E port baudrate input_bytes w
  = (output_bytes,
     emits (exchange_events port baudrate input_bytes output_bytes) w).
Proof.
  unfold UartInterfaceLoopback.exchange, exchange_events. cbv zeta.
  rewrite !emit_emits, !emits_emits. cbn [trace emits app].
  reflexivity.
Qed.

(** ** Text and its UTF-8 form *)

Lemma in_range_ascii (c : Z) : is_ascii c -> Py.in_range 0 127 c = true.
Proof. unfold is_ascii, Py.in_range. lia. Qed.

Lemma encode_ascii (s : py_str) : Forall is_ascii s -> Py.encode s = Ok s.
Proof.
  induction 1 as [|c s Hc _ IH]; [reflexivity|].
  cbn [Py.encode]. unfold Py.encode_char.
  now rewrite (in_range_ascii c Hc), IH.
Qed.

Lemma decode_ascii (b : py_bytes) : Forall is_ascii b -> Py.decode b = Ok b.
Proof.
  induction 1 as [|c b Hc _ IH]; [reflexivity|].
  cbn [Py.decode]. now rewrite (in_range_ascii c Hc), IH.
Qed.

Lemma encode_char_length (c : Z) (bs : py_bytes) :
  Py.encode_char c = Some bs -> (1 <= length bs <= 4)%nat.
Proof.
  unfold Py.encode_char.
  repeat match goal with
         | |- context [if ?b then _ else _] => destruct b
         end;
    intros H; inversion H; simpl; lia.
Qed.

(** A text has at least one byte per character, and at most four. *)
Lemma encode_length (s : py_str) (b : py_bytes) :
  Py.encode s = Ok b -> (length s <= length b <= 4 * length s)%nat.
Proof.
  revert b; induction s as [|c s IH]; intros b; cbn [Py.encode].
  - intros H; inversion H. simpl. lia.
  - destruct (Py.encode_char c) as [bs|] eqn:Hc; [|discriminate].
    destruct (Py.encode s) as [rest|]; [|discriminate].
    intros H; inversion H; subst.
    apply encode_char_length in Hc. specialize (IH rest eq_refl).
    rewrite length_app. simpl. lia.
Qed.

(** ** Rebuilding the text *)

Lemma slice_to_firstn {A : Type} (l : list A) (n : Z) :
  0 <= n -> Py.slice_to l n = firstn (Z.to_nat n) l.
Proof.
  intros Hn. unfold Py.slice_to.
  change n with (0 + n) at 1.
  rewrite slice_block by (unfold len; lia). reflexivity.
Qed.

Lemma reconstruct_spec (output_chunks : list py_bytes) (input_text : py_str)
  (parts : list py_str) :
  decode_each output_chunks = Ok parts ->
  reconstruct output_chunks input_text
  = Ok (firstn (length input_text) (concat parts)).
Proof.
  intros H. unfold reconstruct. rewrite H.
  rewrite slice_to_firstn by (unfold len; lia).
  unfold len. now rewrite Nat2Z.id.
Qed.

Lemma reconstruct_undecodable (output_chunks : list py_bytes)
  (input_text : py_str) :
  Exists undecodable output_chunks ->
  reconstruct output_chunks input_text = Raise UnicodeDecodeError.
Proof.
  intros H. unfold reconstruct.
  assert (Hfail : exists e, decode_each output_chunks = Raise e).
  { induction H as [b rest Hb|b rest _ IH]; cbn [decode_each].
    - rewrite Hb. eauto.
    - destruct (Py.decode b); [|eauto].
      destruct IH as (e & ->). eauto. }
  destruct Hfail as (e & He). rewrite He.
  now rewrite (decode_each_raises _ _ He).
Qed.


Lemma decode_each_ascii (frames : list py_bytes) :
  Forall (Forall is_ascii) frames -> decode_each frames = Ok frames.
Proof.
  induction 1 as [|b frames Hb _ IH]; [reflexivity|].
  cbn [decode_each]. now rewrite (decode_ascii b Hb), IH.
Qed.

Lemma padded_frame_ascii (chunk : py_bytes) :
  Forall is_ascii chunk -> Forall is_ascii (padded_frame chunk).
Proof.
  intros H. apply Forall_app. split; [exact H|].
  apply Forall_forall. intros c Hc. apply repeat_spec in Hc. subst.
  unfold is_ascii. lia.
Qed.

(** Padding only lengthens the last chunk. *)
Lemma concat_padded (chunks : list py_bytes) :
  (forall k, (S k < length chunks)%nat -> length (nth k chunks []) = 16%nat) ->
  exists pad, concat (map padded_frame chunks) = concat chunks ++ pad.
Proof.
  induction chunks as [|c rest IH]; intros Hfull.
  - now exists [].
  - destruct rest as [|c' rest'].
    + exists (repeat 48 (16 - length c)). cbn [map concat].
      rewrite !app_nil_r. reflexivity.
    + destruct IH as (pad & Hpad).
      { intros k Hk. apply (Hfull (S k)). simpl in *. lia. }
      exists pad. cbn [map concat] in *. rewrite Hpad.
      pose proof (Hfull 0%nat ltac:(simpl; lia)) as Hc. cbn [nth] in Hc.
      unfold padded_frame at 1. rewrite Hc. cbn [Nat.sub repeat].
      rewrite app_nil_r, <- !app_assoc. reflexivity.
Qed.

Lemma firstn_length_app {A : Type} (l l' : list A) :
  firstn (length l) (l ++ l') = l.
Proof.
  rewrite firstn_app, Nat.sub_diag, firstn_all. simpl. apply app_nil_r.
Qed.

Lemma firstn_Forall {A : Type} (P : A -> Prop) (n : nat) (l : list A) :
  Forall P l -> Forall P (firstn n l).
Proof.
  intros H. revert n. induction H; intros [|n]; simpl; auto.
Qed.

Lemma skipn_Forall {A : Type} (P : A -> Prop) (n : nat) (l : list A) :
  Forall P l -> Forall P (skipn n l).
Proof.
  intros H. revert n. induction H; intros [|n]; simpl; auto.
Qed.

Lemma blocks_ascii (data : py_bytes) (n : nat) :
  Forall is_ascii data ->
  Forall (Forall is_ascii) (map (block 16 data) (seq 0 n)).
Proof.
  intros H. apply Forall_forall. intros c Hc.
  apply in_map_iff in Hc. destruct Hc as (k & <- & _).
  unfold block. now apply firstn_Forall, skipn_Forall.
Qed.

(** ASCII text that comes back in padded frames is rebuilt as it was. *)
Lemma reconstruct_ascii (input_text : py_str) :
  Forall is_ascii input_text ->
  exists input_chunks,
    Py.encode input_text = Ok input_text /\
    divide_chunks input_text 16 = Ok input_chunks /\
    Forall (fun c => Py.decode (padded_frame c) = Ok (padded_frame c))
      input_chunks /\
    reconstruct (map padded_frame input_chunks) input_text = Ok input_text.
Proof.
  intros Hascii.
  destruct (divide_chunks_16 input_text)
    as (chunks & Hdiv & _ & Hcat & Hfull & _).
  exists chunks. split; [now apply encode_ascii|]. split; [exact Hdiv|].
  assert (Hchunks : Forall (Forall is_ascii) chunks).
  { rewrite divide_chunks_blocks in Hdiv by lia. inversion Hdiv; subst.
    now apply blocks_ascii. }
  assert (Hframes : Forall (Forall is_ascii) (map padded_frame chunks)).
  { apply Forall_map. eapply Forall_impl; [|exact Hchunks].
    apply padded_frame_ascii. }
  split.
  - eapply Forall_impl; [|exact Hchunks].
    intros c Hc. now apply decode_ascii, padded_frame_ascii.
  - rewrite (reconstruct_spec _ _ _ (decode_each_ascii _ Hframes)).
    destruct (concat_padded chunks Hfull) as (pad & ->).
    now rewrite Hcat, firstn_length_app.
Qed.

(** ** The answers of a session round *)

Lemma enumerate_items {A : Type} (l : list A) : map snd (Py.enumerate l) = l.
Proof.
  unfold Py.enumerate. generalize 0%nat.
  induction l as [|x l IH]; intros n; [reflexivity|].
  cbn [length seq map combine snd]. now rewrite IH.
Qed.

Section Answers.

Variable E : env.
Variables (port : py_str) (baudrate : Z).

Lemma send_chunks_answers (items : list (Z * py_bytes)) :
  Forall (fun it => snd it <> []) items ->
  forall output_chunks w,
  exists answers w',
    send_chunks E port baudrate items output_chunks w
    = (Ok (output_chunks ++ answers), w') /\
    Forall2 (answers_to E port baudrate) (map snd items) answers.
Proof.
  induction 1 as [|[i c] items Hc _ IH]; intros output_chunks w;
    cbn [send_chunks].
  - exists [], w. rewrite app_nil_r. split; [reflexivity|constructor].
  - rewrite write_chunk_calls by exact Hc.
    unfold read_chunk. cbv zeta.
    match goal with
    | |- context [send_chunks _ _ _ items (output_chunks ++ [?a]) ?w0] =>
        destruct (IH (output_chunks ++ [a]) w0)
          as (answers & w' & Hsend & Hans);
        exists (a :: answers), w'
    end.
    split.
    + rewrite Hsend, <- app_assoc. reflexivity.
    + cbn [map snd]. constructor; [|exact Hans].
      match goal with |- context [emits (frame_events _ _ _) ?w0] =>
        exists (trace w0)
      end.
      unfold at_read_back. cbn [trace emit emits].
      rewrite <- !app_assoc. reflexivity.
Qed.

(** A round whose text encodes to at least one byte sends at least one
    chunk, and every answer is a read-back. *)
Lemma session_round_answers (input_text : py_str) (input_bytes : py_bytes)
  (w : world) :
  Py.encode input_text = Ok input_bytes ->
  exists input_chunks answers w',
    divide_chunks input_bytes 16 = Ok input_chunks /\
    Forall2 (answers_to E port baudrate) input_chunks answers /\
    session_round E port baudrate input_text w
    = match reconstruct answers input_text with
      | Raise e => (Raise e, w')
      | Ok output_text =>
          (Ok output_text,
           print [newline; newline]
             (print (lit "Output text:" ++ [newline; dquote]
                     ++ output_text ++ [dquote]) w'))
      end.
Proof.
  intros Henc. unfold session_round. rewrite Henc.
  destruct (divide_chunks_nonempty input_bytes) as (chunks & Hdiv & Hne & _).
  rewrite Hdiv.
  match goal with |- context [send_chunks _ _ _ ?items ?o ?w0] =>
    destruct (send_chunks_answers items) with (output_chunks := o) (w := w0)
      as (answers & w' & Hsend & Hans)
  end.
  - apply Forall_forall. intros [i c] Hin. cbn [snd].
    apply in_combine_r in Hin. rewrite Forall_forall in Hne. now apply Hne.
  - exists chunks, answers, w'. split; [reflexivity|].
    rewrite enumerate_items in Hans. split; [exact Hans|].
    rewrite Hsend. cbn [app].
    destruct (reconstruct answers input_text); reflexivity.
Qed.

(** When no answer of the device decodes, a round with something to send
    raises and prints no output text. *)
Lemma session_round_undecodable (input_text : py_str) (input_bytes : py_bytes)
  (w : world) :
  (forall t, undecodable (device E t)) ->
  input_text <> [] -> Py.encode input_text = Ok input_bytes ->
  fst (session_round E port baudrate input_text w) = Raise UnicodeDecodeError.
Proof.
  intros Hdev Hne Henc.
  destruct (session_round_answers input_text input_bytes w Henc)
    as (chunks & answers & w' & Hdiv & Hans & ->).
  rewrite reconstruct_undecodable; [reflexivity|].
  destruct (divide_chunks_16 input_bytes)
    as (chunks' & Hdiv' & _ & _ & _ & _ & Hnil & _).
  rewrite Hdiv in Hdiv'. inversion Hdiv'; subst chunks'.
  destruct Hans as [|c a cs as' (t & ->) _].
  - destruct Hne. pose proof (encode_length _ _ Henc) as Hl.
    rewrite (proj1 Hnil eq_refl) in Hl. simpl in Hl.
    apply length_zero_iff_nil. lia.
  - constructor. apply Hdev.
Qed.

(** When the device answers every chunk with its padded frame and the text
    is ASCII, the round returns the text. *)
Lemma session_round_ascii (input_text : py_str) (w : world) :
  (forall before chunk,
     (1 <= length chunk <= 16)%nat ->
     device E (at_read_back port baudrate before chunk) = padded_frame chunk) ->
  Forall is_ascii input_text ->
  fst (session_round E port baudrate input_text w) = Ok input_text.
Proof.
  intros Hdev Hascii.
  destruct (reconstruct_ascii input_text Hascii)
    as (chunks & Henc & Hdiv & _ & Hrec).
  destruct (session_round_answers input_text input_text w Henc)
    as (chunks' & answers & w' & Hdiv' & Hans & ->).
  rewrite Hdiv in Hdiv'. inversion Hdiv'; subst chunks'.
  assert (Hlen : Forall (fun c => (1 <= length c <= 16)%nat) chunks).
  { destruct (divide_chunks_lengths input_text) as (cs & Hcs & Hl & _).
    rewrite Hdiv in Hcs. inversion Hcs; subst. exact Hl. }
  assert (Heq : answers = map padded_frame chunks).
  { clear Hrec Hdiv.
    induction Hans as [|c a cs as' (t & ->) _ IH]; [reflexivity|].
    inversion Hlen; subst. cbn [map]. rewrite Hdev by assumption.
    f_equal. now apply IH. }
  rewrite Heq, Hrec. reflexivity.
Qed.

End Answers.

(** ** The devices of the benches *)

Lemma writes_app (a b : list event) : writes (a ++ b) = writes a ++ writes b.
Proof.
  induction a as [|e a IH]; [reflexivity|].
  destruct e; simpl; rewrite ?IH; reflexivity.
Qed.

Lemma writes_frame (port : py_str) (baudrate : Z) (chunk : py_bytes) :
  writes (frame_events port baudrate chunk)
  = map PyInt chunk ++ repeat (PyBytes (lit "0")) (16 - length chunk).
Proof.
  unfold frame_events. rewrite !writes_app. cbn [writes app].
  rewrite app_nil_r. f_equal.
  - induction chunk as [|b chunk IH]; simpl; congruence.
  - induction (16 - length chunk)%nat as [|n IH]; simpl; congruence.
Qed.

(** What [write_chunk] puts on the wire for a chunk that is not empty: for
    each byte of the chunk as many zero bytes as its value, then the
    fillers. *)
Lemma write_chunk_wire (port : py_str) (baudrate : Z) (chunk : py_bytes) :
  wire (frame_events port baudrate chunk)
  = flat_map (fun b => repeat 0 (Z.to_nat b)) chunk
    ++ repeat 48 (16 - length chunk).
Proof.
  unfold wire. rewrite writes_frame, map_app, concat_app. f_equal.
  - induction chunk as [|b chunk IH]; [reflexivity|].
    cbn [map concat flat_map to_bytes]. now rewrite IH.
  - change (lit "0") with [48].
    induction (16 - length chunk)%nat as [|n IH]; [reflexivity|].
    cbn [repeat map concat to_bytes app]. now rewrite IH.
Qed.

Lemma call_values_integers (chunk : py_bytes) :
  concat (map call_values (map PyInt chunk)) = chunk.
Proof. induction chunk as [|b chunk IH]; simpl; congruence. Qed.

Lemma call_values_filler (n : nat) :
  concat (map call_values (repeat (PyBytes (lit "0")) n)) = repeat 48 n.
Proof.
  change (lit "0") with [48].
  induction n as [|n IH]; [reflexivity|].
  cbn [repeat map concat call_values app]. now rewrite IH.
Qed.

(** The frame-echoing device answers every chunk with its padded frame. *)
Lemma frame_echo_answers (port : py_str) (baudrate : Z)
  (before : list event) (chunk : py_bytes) :
  (1 <= length chunk <= 16)%nat ->
  frame_echo (at_read_back port baudrate before chunk) = padded_frame chunk.
Proof.
  intros Hlen. unfold frame_echo, at_read_back, last16.
  rewrite !writes_app, writes_frame. cbn [writes]. rewrite app_nil_r.
  set (frame := map PyInt chunk ++ _).
  assert (Hframe : length frame = 16%nat).
  { unfold frame. rewrite length_app, length_map, repeat_length. lia. }
  rewrite length_app, Hframe, Nat.add_sub, skipn_app, skipn_all, Nat.sub_diag.
  cbn [skipn app]. unfold frame, padded_frame.
  rewrite map_app, concat_app, call_values_integers, call_values_filler.
  reflexivity.
Qed.

(** ** The discipline of the serial line *)

Lemma str_eq_refl (s : py_str) : Py.str_eq s s = true.
Proof.
  unfold Py.str_eq. destruct (list_eq_dec Z.eq_dec s s); congruence.
Qed.

Lemma line_run_app (a b : list event) (s : line) :
  line_run (a ++ b) s
  = match line_run a s with
    | Some s' => line_run b s'
    | None => None
    end.
Proof.
  revert s; induction a as [|e a IH]; intros s; [reflexivity|].
  cbn [app line_run]. destruct (line_after e s); [apply IH|reflexivity].
Qed.

Lemma disciplined_nil : disciplined [].
Proof. reflexivity. Qed.

Lemma disciplined_app (a b : list event) :
  disciplined a -> disciplined b -> disciplined (a ++ b).
Proof.
  unfold disciplined. intros Ha Hb. now rewrite line_run_app, Ha.
Qed.

Lemma probes_disciplined (sys : system) (ports : list py_str) :
  disciplined (flat_map (probe_events sys) ports).
Proof.
  induction ports as [|p ports IH]; [reflexivity|].
  cbn [flat_map]. apply disciplined_app; [|exact IH].
  unfold probe_events, disciplined. destruct (openable sys p); cbn.
  - now rewrite str_eq_refl.
  - reflexivity.
Qed.

(** ** Decimal numerals *)

Lemma lit_inj (a b : string) : lit a = lit b -> a = b.
Proof.
  unfold lit. intros H.
  rewrite <- (string_of_list_ascii_of_string a),
          <- (string_of_list_ascii_of_string b).
  f_equal. revert H.
  generalize (list_ascii_of_string a) (list_ascii_of_string b).
  intros l. induction l as [|x l IH]; intros [|y l']; cbn; try discriminate;
    [reflexivity|].
  intros H. injection H as Hxy Hrest. f_equal; [|now apply IH].
  apply N2Z.inj in Hxy.
  now rewrite <- (ascii_N_embedding x), <- (ascii_N_embedding y), Hxy.
Qed.

Lemma to_int_not_nil (n : Z) :
  Z.to_int n <> Decimal.Pos Decimal.Nil /\
  Z.to_int n <> Decimal.Neg Decimal.Nil.
Proof.
  destruct n as [|p|p]; cbn; split; try discriminate;
    intros H; injection H as H; now apply Unsigned.to_uint_nonnil in H.
Qed.

(** [str(n)] tells integers apart. *)
Lemma str_of_int_inj (n m : Z) : Py.str_of_int n = Py.str_of_int m -> n = m.
Proof.
  unfold Py.str_of_int. intros H. apply lit_inj in H.
  destruct (to_int_not_nil n) as [Hp Hn].
  destruct (to_int_not_nil m) as [Hp' Hn'].
  pose proof (NilZero.isi _ Hp Hn) as Hi.
  rewrite H, (NilZero.isi _ Hp' Hn') in Hi.
  injection Hi as Hi.
  now rewrite <- (DecimalZ.of_to n), <- (DecimalZ.of_to m), Hi.
Qed.

(** ** Every call leaves the line free *)

Lemma tidy_refl (w : world) : tidy w w.
Proof. exists []. split; [now rewrite app_nil_r|reflexivity]. Qed.

Lemma tidy_trans (w1 w2 w3 : world) : tidy w1 w2 -> tidy w2 w3 -> tidy w1 w3.
Proof.
  intros (a & Ha & Da) (b & Hb & Db). exists (a ++ b).
  split; [now rewrite Hb, Ha, app_assoc|now apply disciplined_app].
Qed.

Lemma tidy_emits (evs : list event) (w : world) :
  disciplined evs -> tidy w (emits evs w).
Proof. intros H. exists evs. now split. Qed.

Lemma menu_events_keep_the_line (evs : list event) :
  Forall is_menu_event evs -> forall s, line_run evs s = Some s.
Proof.
  induction 1 as [|e evs He _ IH]; intros s; [reflexivity|].
  cbn [line_run].
  assert (Hs : line_after e s = Some s).
  { destruct e; cbn in He; try contradiction; now destruct s. }
  rewrite Hs. apply IH.
Qed.

Lemma tidy_of_menu_events (n : nat) (w w' : world) :
  extends is_menu_event n w w' -> tidy w w'.
Proof.
  intros [_ (evs & H & F)]. exists evs. split; [exact H|].
  apply (menu_events_keep_the_line evs F).
Qed.

Lemma tidy_print (s : py_str) (w : world) : tidy w (print s w).
Proof. eapply tidy_of_menu_events. apply print_extends. Qed.

Lemma tidy_enumeration (E : env) (w : world) :
  tidy w (snd (call_serial_ports E w)).
Proof.
  rewrite call_serial_ports_spec. cbn [snd].
  eexists. split; [reflexivity|].
  rewrite serial_ports_filter.
  destruct (candidates _); cbn [snd];
    [apply probes_disciplined|apply disciplined_nil].
Qed.

Lemma tidy_wait_for_ports (E : env) (lines : console) :
  forall (available_ports : list py_str) (w : world),
    tidy w (snd (wait_for_ports E available_ports lines w)).
Proof.
  induction lines as [|line rest IH]; intros available_ports w;
    cbn [wait_for_ports]; destruct (len available_ports =? 0); cbn [snd];
    try apply tidy_refl.
  - apply (tidy_emits [Prompt retry_prompt]). reflexivity.
  - set (w1 := emit (Stdin line) (emit (Prompt retry_prompt) w)).
    assert (H1 : tidy w w1).
    { unfold w1. rewrite !emit_emits, emits_emits.
      apply tidy_emits. reflexivity. }
    pose proof (tidy_enumeration E w1) as H2.
    destruct (call_serial_ports E w1) as [[ports|e] w2]; cbn [snd] in *.
    + eapply tidy_trans; [|apply IH]. eapply tidy_trans; eassumption.
    + eapply tidy_trans; eassumption.
Qed.

Lemma tidy_menu_loop (ports : list py_str) (lines : console) (w : world) :
  tidy w (snd (menu_loop ports lines w)).
Proof. eapply tidy_of_menu_events. apply menu_loop_spec. Qed.

Lemma tidy_menu_with
  (choose : list py_str -> console -> world -> result py_str * console * world)
  (E : env) (lines : console) (w : world) :
  (forall ports ls w0, tidy w0 (snd (choose ports ls w0))) ->
  tidy w (snd (menu_with choose E lines w)).
Proof.
  intros Hchoose. unfold menu_with.
  pose proof (tidy_enumeration E w) as H1.
  destruct (call_serial_ports E w) as [[ports|e] w1]; cbn [snd] in *;
    [|exact H1].
  pose proof (tidy_wait_for_ports E lines ports w1) as H2.
  destruct (wait_for_ports E ports lines w1) as [[[found|e] ls] w2];
    cbn [snd] in *.
  - eapply tidy_trans; [|apply Hchoose]. eapply tidy_trans; eassumption.
  - eapply tidy_trans; eassumption.
Qed.

Lemma tidy_session_menu (E : env) (lines : console) (w : world) :
  tidy w (snd (UartInterface.serial_port_menu E lines w)).
Proof.
  rewrite session_menu_unfold. apply tidy_menu_with.
  intros. apply tidy_menu_loop.
Qed.

Lemma tidy_loopback_menu (E : env) (lines : console) (w : world) :
  tidy w (snd (UartInterfaceLoopback.serial_port_menu E lines w)).
Proof.
  rewrite loopback_menu_unfold. apply tidy_menu_with.
  intros ports ls w0. unfold choose_or_take_the_only_one.
  destruct (len ports =? 1); [|apply tidy_menu_loop].
  destruct (Py.index ports 0); cbn [snd]; [apply tidy_print|apply tidy_refl].
Qed.

(** The two baud-rate menus only use the console. *)
Lemma session_baudrate_menu_console (lines : console) :
  forall w,
    extends is_menu_event 0 w (snd (UartInterface.baudrate_menu lines w)).
Proof.
  induction lines as [|resp rest IH]; intros w;
    cbn [UartInterface.baudrate_menu snd].
  - rewrite print_emits, emit_emits, emits_emits.
    apply extends_emits. repeat constructor.
  - set (w1 := emit (Stdin resp) _).
    assert (H1 : extends is_menu_event 0 w w1).
    { unfold w1. rewrite print_emits, !emit_emits, !emits_emits.
      apply extends_emits. repeat constructor. }
    destruct resp as [|c resp]; [exact H1|].
    destruct (Py.int (c :: resp)) as [n|e] eqn:Hint; [exact H1|].
    rewrite (int_raises _ _ Hint).
    apply (extends_trans is_menu_event 0 0 _ w1); [exact H1|].
    apply (extends_trans is_menu_event 0 0 _
             (print (lit "Wrong reponse type, try again !") w1));
      [apply print_extends|apply IH].
Qed.

Lemma loopback_baudrate_menu_console (lines : console) :
  forall w,
    extends is_menu_event 0 w
      (snd (UartInterfaceLoopback.baudrate_menu lines w)).
Proof.
  induction lines as [|resp rest IH]; intros w;
    cbn [UartInterfaceLoopback.baudrate_menu snd].
  - rewrite print_emits, emit_emits, emits_emits.
    apply extends_emits. repeat constructor.
  - set (w1 := emit (Stdin resp) _).
    assert (H1 : extends is_menu_event 0 w w1).
    { unfold w1. rewrite print_emits, !emit_emits, !emits_emits.
      apply extends_emits. repeat constructor. }
    destruct (Py.int resp) as [n|e] eqn:Hint; [exact H1|].
    rewrite (int_raises _ _ Hint).
    apply (extends_trans is_menu_event 0 0 _ w1); [exact H1|].
    apply (extends_trans is_menu_event 0 0 _
             (print (lit "Wrong reponse type, try again !") w1));
      [apply print_extends|apply IH].
Qed.

Lemma writes_keep_the_line (port : py_str) (vs : list pyval) :
  line_run (map Write vs) (Some port) = Some (Some port).
Proof. induction vs as [|v vs IH]; [reflexivity|exact IH]. Qed.

(** A connection that sleeps, writes and closes. *)
Lemma write_connection_disciplined (port : py_str) (baudrate : Z)
  (vs : list pyval) :
  disciplined ([Open port (Some baudrate); Sleep 100] ++ map Write vs
               ++ [Close port]).
Proof.
  unfold disciplined. cbn [app line_run line_after].
  rewrite line_run_app, writes_keep_the_line. cbn.
  now rewrite str_eq_refl.
Qed.

Lemma frame_events_writes (port : py_str) (baudrate : Z) (chunk : py_bytes) :
  frame_events port baudrate chunk
  = [Open port (Some baudrate); Sleep 100]
    ++ map Write (map PyInt chunk
                  ++ repeat (PyBytes (lit "0")) (16 - length chunk))
    ++ [Close port].
Proof.
  unfold frame_events. rewrite map_app, map_map, <- app_assoc.
  do 3 f_equal. symmetry. apply map_repeat.
Qed.

Lemma tidy_write_chunk (chunk : py_bytes) (port : py_str) (baudrate : Z)
  (w : world) :
  tidy w (snd (write_chunk chunk port baudrate w)).
Proof.
  destruct chunk as [|b chunk].
  - rewrite write_chunk_empty. apply tidy_emits.
    apply (write_connection_disciplined port baudrate []).
  - rewrite write_chunk_calls by discriminate. cbn [snd].
    apply tidy_emits. rewrite frame_events_writes.
    apply write_connection_disciplined.
Qed.

Lemma tidy_read_chunk (E : env) (port : py_str) (baudrate : Z) (w : world) :
  tidy w (snd (read_chunk E port baudrate w)).
Proof.
  unfold read_chunk. cbv zeta. cbn [snd].
  rewrite !emit_emits, !emits_emits. apply tidy_emits.
  unfold disciplined. cbn. now rewrite str_eq_refl.
Qed.

Lemma tidy_send_chunks (E : env) (port : py_str) (baudrate : Z)
  (items : list (Z * py_bytes)) :
  forall output_chunks w,
    tidy w (snd (send_chunks E port baudrate items output_chunks w)).
Proof.
  induction items as [|[i c] items IH]; intros output_chunks w;
    cbn [send_chunks]; [apply tidy_refl|].
  set (w1 := print_end _ _ w).
  assert (H1 : tidy w w1) by (apply tidy_emits; reflexivity).
  pose proof (tidy_write_chunk c port baudrate w1) as H2.
  destruct (write_chunk c port baudrate w1) as [[u|e] w2]; cbn [snd] in *.
  - pose proof (tidy_read_chunk E port baudrate w2) as H3.
    destruct (read_chunk E port baudrate w2) as [answer w3]. cbn [snd] in H3.
    eapply tidy_trans; [|apply IH].
    eapply tidy_trans; [|apply tidy_print].
    eapply tidy_trans; [|exact H3]. eapply tidy_trans; eassumption.
  - eapply tidy_trans; eassumption.
Qed.

Lemma tidy_session_round (E : env) (port : py_str) (baudrate : Z)
  (input_text : py_str) (w : world) :
  tidy w (snd (session_round E port baudrate input_text w)).
Proof.
  unfold session_round.
  destruct (Py.encode input_text) as [input_bytes|e]; [|apply tidy_refl].
  destruct (divide_chunks input_bytes 16) as [chunks|e];
    [|apply tidy_print].
  match goal with |- context [send_chunks _ _ _ ?items ?o ?w0] =>
    pose proof (tidy_send_chunks E port baudrate items o w0) as H;
    destruct (send_chunks E port baudrate items o w0) as [[answers|e] w1]
  end; cbn [snd] in *.
  - assert (H1 : tidy w w1).
    { eapply tidy_trans; [|exact H]. eapply tidy_trans; apply tidy_print. }
    destruct (reconstruct answers input_text); cbn [snd]; [|exact H1].
    eapply tidy_trans; [exact H1|].
    eapply tidy_trans; apply tidy_print.
  - eapply tidy_trans; [|exact H]. eapply tidy_trans; apply tidy_print.
Qed.

Lemma tidy_session_loop (E : env) (port : py_str) (baudrate : Z)
  (lines : console) :
  forall w, tidy w (snd (session_loop E port baudrate lines w)).
Proof.
  induction lines as [|input_text rest IH]; intros w; cbn [session_loop snd].
  - apply (tidy_emits [Prompt _]). reflexivity.
  - set (w1 := emit (Stdin input_text) _).
    assert (H1 : tidy w w1).
    { unfold w1. rewrite !emit_emits, emits_emits.
      apply tidy_emits. reflexivity. }
    pose proof (tidy_session_round E port baudrate input_text w1) as H2.
    destruct (session_round E port baudrate input_text w1) as [[out|e] w2];
      cbn [snd] in *.
    + eapply tidy_trans; [|apply IH]. eapply tidy_trans; eassumption.
    + eapply tidy_trans; eassumption.
Qed.

Lemma tidy_session_script (E : env) (lines : console) :
  tidy start (snd (UartInterface.script E lines)).
Proof.
  unfold UartInterface.script.
  pose proof (tidy_print UartInterface.TITLE start) as H0.
  pose proof (tidy_session_menu E lines (print UartInterface.TITLE start))
    as H1.
  destruct (UartInterface.serial_port_menu E lines _) as [[[port|e] ls] w1];
    cbn [snd] in *; [|eapply tidy_trans; eassumption].
  pose proof (tidy_of_menu_events _ _ _
                (session_baudrate_menu_console ls (print [newline] w1)))
    as H2.
  destruct (UartInterface.baudrate_menu ls _) as [[[baudrate|e] ls'] w2];
    cbn [snd] in *.
  - eapply tidy_trans; [|apply tidy_session_loop].
    eapply tidy_trans; [|apply tidy_print].
    eapply tidy_trans; [|apply tidy_print].
    eapply tidy_trans; [|exact H2].
    eapply tidy_trans; [|apply tidy_print].
    eapply tidy_trans; eassumption.
  - eapply tidy_trans; [|exact H2].
    eapply tidy_trans; [|apply tidy_print].
    eapply tidy_trans; eassumption.
Qed.

Lemma tidy_exchange (E : env) (port : py_str) (baudrate : Z)
  (input_bytes : py_bytes) (w : world) :
  tidy w (snd (UartInterfaceLoopback.exchange E port baudrate input_bytes w)).
Proof.
  rewrite exchange_spec. cbn [snd]. apply tidy_emits.
  unfold disciplined, exchange_events. cbn. now rewrite str_eq_refl.
Qed.

Lemma tidy_main (E : env) (input_bytes : py_bytes) (lines : console)
  (w : world) :
  tidy w (snd (UartInterfaceLoopback.main E input_bytes lines w)).
Proof.
  unfold UartInterfaceLoopback.main, UartInterfaceLoopback.choose_port,
    UartInterfaceLoopback.choose_baudrate.
  cbn [UartInterfaceLoopback.DEFAULT_PORT
       UartInterfaceLoopback.DEFAULT_BAUDRATE
       UartInterfaceLoopback.baudrate_is_set].
  change (negb (115200 =? 0)) with true. cbv iota.
  set (w1 := print (lit "Default serial port is not set.") _).
  assert (H1 : tidy w w1) by (eapply tidy_trans; apply tidy_print).
  pose proof (tidy_loopback_menu E lines w1) as H2.
  destruct (UartInterfaceLoopback.serial_port_menu E lines w1)
    as [[[port|e] ls] w2]; cbn [snd] in *;
    [|eapply tidy_trans; eassumption].
  match goal with
  | |- context [UartInterfaceLoopback.exchange E port 115200 input_bytes ?w0] =>
      set (w3 := w0);
      pose proof (tidy_exchange E port 115200 input_bytes w3) as H4;
      destruct (UartInterfaceLoopback.exchange E port 115200 input_bytes w3)
        as [out w4]
  end.
  cbn [snd] in *.
  eapply tidy_trans; [|exact H4].
  unfold w3. repeat (eapply tidy_trans; [|apply tidy_print]).
  eapply tidy_trans; eassumption.
Qed.

Lemma tidy_self_test (E : env) (literal : py_str) (lines : console) :
  tidy start (snd (UartInterfaceLoopback.script_with E literal lines)).
Proof.
  unfold UartInterfaceLoopback.script_with.
  destruct (negb (len literal =? 32)); [apply tidy_print|].
  destruct (Py.fromhex literal) as [input_bytes|e] eqn:Hhex.
  - pose proof (tidy_main E input_bytes lines start) as H1.
    destruct (UartInterfaceLoopback.main E input_bytes lines start)
      as [[[out|e] ls] w1]; cbn [snd] in *; [|exact H1].
    eapply tidy_trans; [exact H1|].
    eapply tidy_trans; [apply tidy_print|].
    eapply tidy_trans; [|apply tidy_print].
    apply tidy_emits. reflexivity.
  - rewrite (fromhex_raises _ _ Hhex). apply tidy_print.
Qed.

(** ** How the scripts can end *)

Lemma candidates_supported (sys : system) :
  if supported sys
  then exists ports, candidates sys = Ok ports
  else candidates sys = Raise EnvironmentError.
Proof.
  unfold supported, candidates.
  destruct (Py.startswith (platform sys) (lit "win")); cbn [orb]; [eauto|].
  destruct (Py.startswith (platform sys) (lit "linux")); cbn [orb]; [eauto|].
  destruct (Py.startswith (platform sys) (lit "cygwin")); cbn [orb]; [eauto|].
  destruct (Py.startswith (platform sys) (lit "darwin")); eauto.
Qed.










(** On a platform [serial_ports] does not know, the first enumeration
    raises and adds nothing to the trace. *)
Lemma first_enumeration_unsupported (E : env) (w : world) :
  supported (system_at E (enum_calls w)) = false ->
  fst (call_serial_ports E w) = Raise EnvironmentError /\
  trace (snd (call_serial_ports E w)) = trace w.
Proof.
  intros Hsys. rewrite call_serial_ports_spec. unfold enumeration.
  rewrite serial_ports_filter.
  pose proof (candidates_supported (system_at E (enum_calls w))) as H.
  rewrite Hsys in H. rewrite H. cbn. now rewrite app_nil_r.
Qed.

(** ** The menus, line after line *)

Section Lines.

Variable rejected : list py_str.
Variable rest : console.

Lemma session_baudrate_menu_skips :
  Forall (fun l => l <> [] /\ Py.int l = Raise ValueError) rejected ->
  forall w,
    UartInterface.baudrate_menu (rejected ++ rest) w
    = UartInterface.baudrate_menu rest
        (fold_left (fun w l => print wrong_type (session_baudrate_asks l w))
           rejected w).
Proof.
  induction 1 as [|l ls [Hne Hint] _ IH]; intros w; [reflexivity|].
  cbn [app fold_left UartInterface.baudrate_menu].
  destruct l as [|c l]; [congruence|]. rewrite Hint. apply IH.
Qed.

Lemma loopback_baudrate_menu_skips :
  Forall (fun l => Py.int l = Raise ValueError) rejected ->
  forall w,
    UartInterfaceLoopback.baudrate_menu (rejected ++ rest) w
    = UartInterfaceLoopback.baudrate_menu rest
        (fold_left (fun w l => print wrong_type (loopback_baudrate_asks l w))
           rejected w).
Proof.
  induction 1 as [|l ls Hint _ IH]; intros w; [reflexivity|].
  cbn [app fold_left UartInterfaceLoopback.baudrate_menu].
  rewrite Hint. apply IH.
Qed.


End Lines.

(** ** Chunks of any size *)

Lemma removelast_blocks {A : Type} (c : nat) (data : list A) (n : nat) :
  removelast (map (block c data) (seq 0 (S n))) = map (block c data) (seq 0 n).
Proof.
  rewrite seq_S, map_app. cbn [map]. apply removelast_last.
Qed.

Lemma divide_chunks_positive (data : py_bytes) (c : Z) :
  0 < c ->
  exists chunks,
    divide_chunks data c = Ok chunks /\
    concat chunks = data /\
    Forall (fun ch => 1 <= len ch <= c) chunks /\
    Forall (fun ch => len ch = c) (removelast chunks) /\
    c * (len chunks - 1) < len data <= c * len chunks.
Proof.
  intros Hc.
  pose proof (chunk_count_bounds (len data) c
                ltac:(unfold len; lia) Hc) as [Hb Hpos].
  pose proof (divide_chunks_blocks data c Hc) as Hdiv.
  set (n := Z.to_nat (chunk_count (len data) c)) in *.
  set (c' := Z.to_nat c) in *.
  assert (Hn : Z.of_nat n = chunk_count (len data) c) by (unfold n; lia).
  assert (Hc' : Z.of_nat c' = c) by (unfold c'; lia).
  rewrite <- Hn in Hb. unfold len in Hb. clearbody n c'. subst c.
  eexists. split; [exact Hdiv|].
  split; [|split; [|split]].
  - rewrite concat_blocks. apply firstn_all2. nia.
  - apply Forall_forall. intros ch Hin.
    apply in_map_iff in Hin. destruct Hin as (k & <- & Hin).
    apply in_seq in Hin. unfold len. rewrite length_block. nia.
  - destruct n as [|m]; [constructor|].
    replace (removelast _) with (map (block c' data) (seq 0 m))
      by (symmetry; apply removelast_blocks).
    apply Forall_forall. intros ch Hin.
    apply in_map_iff in Hin. destruct Hin as (k & <- & Hin).
    apply in_seq in Hin. unfold len. rewrite length_block. nia.
  - unfold len. rewrite length_map, length_seq. lia.
Qed.

(** ** One port *)



(** ** Hexadecimal forms *)

Lemma hexval_hexdigit (n : Z) :
  0 <= n < 16 -> Py.hexval (Py.hexdigit n) = Some n.
Proof.
  intros H.
  assert (Hn : In n (map Z.of_nat (seq 0 16))).
  { apply in_map_iff. exists (Z.to_nat n). split; [lia|].
    apply in_seq. lia. }
  cbn in Hn. intuition (subst; reflexivity).
Qed.

Lemma hex_space_hexdigit (n : Z) :
  0 <= n < 16 -> Py.is_hex_space (Py.hexdigit n) = false.
Proof.
  intros H.
  assert (Hn : In n (map Z.of_nat (seq 0 16))).
  { apply in_map_iff. exists (Z.to_nat n). split; [lia|].
    apply in_seq. lia. }
  cbn in Hn. intuition (subst; reflexivity).
Qed.

Lemma fromhex_hex (p : py_bytes) :
  Forall is_byte p -> Py.fromhex (Py.hex p) = Ok p.
Proof.
  induction 1 as [|x p Hx _ IH]; [reflexivity|].
  unfold is_byte in Hx.
  assert (Htop : 0 <= x / 16 < 16).
  { split; [apply Z.div_pos; lia|apply Z.div_lt_upper_bound; lia]. }
  assert (Hbot : 0 <= x mod 16 < 16) by (apply Z.mod_pos_bound; lia).
  unfold Py.hex. cbn [flat_map app]. fold (Py.hex p).
  cbn [Py.fromhex].
  rewrite (hex_space_hexdigit _ Htop), (hexval_hexdigit _ Htop),
    (hexval_hexdigit _ Hbot), IH.
  f_equal. f_equal. symmetry. apply Z.div_mod. lia.
Qed.

Lemma hex_length (p : py_bytes) : length (Py.hex p) = (2 * length p)%nat.
Proof.
  induction p as [|x p IH]; [reflexivity|].
  unfold Py.hex. cbn [flat_map app length]. fold (Py.hex p). lia.
Qed.

Lemma hexdigit_lower (n : Z) : ~ (58 <= Py.hexdigit n <= 96).
Proof.
  unfold Py.hexdigit. destruct (Z.ltb_spec n 10); lia.
Qed.

Lemma hex_lower (p : py_bytes) :
  Forall (fun c => ~ (58 <= c <= 96)) (Py.hex p).
Proof.
  induction p as [|x p IH]; [constructor|].
  unfold Py.hex. cbn [flat_map app]. fold (Py.hex p).
  repeat constructor; try apply hexdigit_lower. exact IH.
Qed.

Lemma verdict_upper (literal : py_str) (output_bytes : py_bytes) :
  Exists upper_hex literal ->
  UartInterfaceLoopback.verdict literal output_bytes = lit "FAIL".
Proof.
  intros Hup. unfold UartInterfaceLoopback.verdict, Py.str_eq.
  destruct (list_eq_dec Z.eq_dec literal (Py.hex output_bytes)) as [->|_];
    [|reflexivity].
  apply Exists_exists in Hup. destruct Hup as (c & Hin & Hc).
  pose proof (hex_lower output_bytes) as Hlow.
  rewrite Forall_forall in Hlow. specialize (Hlow c Hin).
  unfold upper_hex in Hc. lia.
Qed.

Lemma verdict_hex (p output_bytes : py_bytes) :
  UartInterfaceLoopback.verdict (Py.hex p) output_bytes
  = if list_eq_dec Z.eq_dec output_bytes p then lit "SUCCES" else lit "FAIL".
Proof.
  unfold UartInterfaceLoopback.verdict, Py.str_eq.
  destruct (list_eq_dec Z.eq_dec (Py.hex p) (Py.hex output_bytes)) as [H|H];
    destruct (list_eq_dec Z.eq_dec output_bytes p) as [H'|H'];
    try reflexivity.
  - apply hex_inj in H. congruence.
  - subst. congruence.
Qed.

(** The script from the literal on, once the literal is accepted. *)
Lemma script_with_accepted (E : env) (literal : py_str) (p : py_bytes)
  (lines : console) :
  length literal = 32%nat -> Py.fromhex literal = Ok p ->
  UartInterfaceLoopback.script_with E literal lines
  = match UartInterfaceLoopback.main E p lines start with
    | (Raise e, _, w) => (Raise e, w)
    | (Ok output_bytes, _, w) =>
        (Ok tt,
         report output_bytes
           (UartInterfaceLoopback.verdict literal output_bytes) w)
    end.
Proof.
  intros Hlen Hhex. unfold UartInterfaceLoopback.script_with. cbv zeta.
  unfold len. rewrite Hlen. change (negb (Z.of_nat 32 =? 32)) with false.
  cbv iota. rewrite Hhex.
  destruct (UartInterfaceLoopback.main E p lines start) as [[[out|e] ls] w];
    reflexivity.
Qed.

(** ** Characters of more than one byte *)

Lemma encode_ascii_app (a s : py_str) :
  Forall is_ascii a ->
  Py.encode (a ++ s)
  = match Py.encode s with
    | Ok r => Ok (a ++ r)
    | Raise e => Raise e
    end.
Proof.
  induction 1 as [|c a Hc _ IH]; cbn [app].
  - now destruct (Py.encode s).
  - cbn [Py.encode]. unfold Py.encode_char.
    rewrite (in_range_ascii c Hc), IH.
    now destruct (Py.encode s).
Qed.

Lemma decode_ascii_app (a r : py_bytes) :
  Forall is_ascii a ->
  Py.decode (a ++ r)
  = match Py.decode r with
    | Ok s => Ok (a ++ s)
    | Raise e => Raise e
    end.
Proof.
  induction 1 as [|c a Hc _ IH]; cbn [app].
  - now destruct (Py.decode r).
  - cbn [Py.decode]. rewrite (in_range_ascii c Hc), IH.
    now destruct (Py.decode r).
Qed.

(** The form of a character that is not ASCII has two bytes or more, and
    its first byte is not ASCII either. *)
Lemma encode_char_lead (c : Z) (bs : py_bytes) :
  ~ is_ascii c -> Py.encode_char c = Some bs ->
  exists b0 b1 r, bs = b0 :: b1 :: r /\ ~ is_ascii b0.
Proof.
  intros Hc H. unfold Py.encode_char in H.
  destruct (Py.in_range 0 127 c) eqn:H0.
  { unfold Py.in_range, is_ascii in *. lia. }
  destruct (Py.in_range 128 2047 c) eqn:H1.
  { exists (192 + c / 64), (128 + c mod 64), [].
    split; [congruence|].
    assert (2 <= c / 64)
      by (apply Z.div_le_lower_bound; unfold Py.in_range in *; lia).
    unfold is_ascii. lia. }
  destruct (Py.in_range 55296 57343 c); [discriminate|].
  destruct (Py.in_range 2048 65535 c) eqn:H2.
  { exists (224 + c / 4096), (128 + (c / 64) mod 64), [128 + c mod 64].
    split; [congruence|].
    assert (0 <= c / 4096)
      by (apply Z.div_pos; unfold Py.in_range in *; lia).
    unfold is_ascii. lia. }
  destruct (Py.in_range 65536 1114111 c) eqn:H3; [|discriminate].
  exists (240 + c / 262144), (128 + (c / 4096) mod 64),
    [128 + (c / 64) mod 64; 128 + c mod 64].
  split; [congruence|].
  assert (0 <= c / 262144)
    by (apply Z.div_pos; unfold Py.in_range in *; lia).
  unfold is_ascii. lia.
Qed.

(** A first byte of a longer form, alone at the end, does not decode. *)
Lemma decode_lone_lead (b0 : Z) :
  ~ is_ascii b0 -> Py.decode [b0] = Raise UnicodeDecodeError.
Proof.
  intros Hb. cbn [Py.decode].
  replace (Py.in_range 0 127 b0) with false
    by (unfold Py.in_range, is_ascii in *; lia).
  destruct (Py.in_range 194 223 b0); [reflexivity|].
  destruct (Py.in_range 224 239 b0); [reflexivity|].
  destruct (Py.in_range 240 244 b0); reflexivity.
Qed.

(** When a character of more than one byte starts on the last byte of a
    chunk, that chunk does not decode, not even as it was sent. *)
Lemma split_character_chunk (before after : py_str) (c : Z) (m : nat)
  (input_bytes : py_bytes) :
  Forall is_ascii before -> length before = (15 + 16 * m)%nat ->
  ~ is_ascii c ->
  Py.encode (before ++ c :: after) = Ok input_bytes ->
  exists input_chunks,
    divide_chunks input_bytes 16 = Ok input_chunks /\
    Forall (fun ch => (1 <= length ch <= 16)%nat) input_chunks /\
    Exists undecodable (map padded_frame input_chunks).
Proof.
  intros Hascii Hlen Hc Henc.
  rewrite (encode_ascii_app _ _ Hascii) in Henc. cbn [Py.encode] in Henc.
  destruct (Py.encode_char c) as [bs|] eqn:Hbs; [|discriminate].
  destruct (Py.encode after) as [r|e]; [|discriminate].
  destruct (encode_char_lead c bs Hc Hbs) as (b0 & b1 & tl & -> & Hb0).
  injection Henc as <-.
  set (data := before ++ (b0 :: b1 :: tl) ++ r).
  destruct (divide_chunks_lengths data) as (chunks & Hdiv & Hl & _).
  exists chunks. split; [exact Hdiv|]. split; [exact Hl|].
  pose proof (divide_chunks_blocks data 16 ltac:(lia)) as Hblocks.
  rewrite Hdiv in Hblocks. injection Hblocks as Hblocks.
  pose proof (chunk_count_bounds (len data) 16
                ltac:(unfold len; lia) ltac:(lia)) as [Hb Hpos].
  set (n := Z.to_nat (chunk_count (len data) 16)) in *.
  assert (Hdata : (length data >= 17 + 16 * m)%nat).
  { unfold data. rewrite !length_app. cbn [length]. lia. }
  assert (Hn : (m < n)%nat) by (unfold n, len in *; lia).
  change (Z.to_nat 16) with 16%nat in Hblocks.
  apply Exists_exists. exists (padded_frame (block 16 data m)). split.
  - apply in_map. rewrite Hblocks. apply in_map. apply in_seq. lia.
  - assert (Hblock : block 16 data m = skipn (16 * m) before ++ [b0]).
    { unfold block, data. rewrite skipn_app.
      replace (16 * m - length before)%nat with 0%nat by lia.
      rewrite skipn_O, firstn_app, length_skipn.
      replace (16 - (length before - 16 * m))%nat with 1%nat by lia.
      rewrite firstn_all2 by (rewrite length_skipn; lia).
      reflexivity. }
    unfold undecodable, padded_frame. rewrite Hblock.
    rewrite length_app, length_skipn. cbn [length].
    replace (16 - (length before - 16 * m + 1))%nat with 0%nat by lia.
    cbn [repeat]. rewrite app_nil_r.
    rewrite decode_ascii_app by (apply skipn_Forall; exact Hascii).
    now rewrite (decode_lone_lead b0 Hb0).
Qed.

(** The answers of a device that returns every frame as it was sent. *)
Lemma answers_of_an_echo (E : env) (port : py_str) (baudrate : Z)
  (chunks answers : list py_bytes) :
  (forall before chunk,
     (1 <= length chunk <= 16)%nat ->
     device E (at_read_back port baudrate before chunk) = padded_frame chunk) ->
  Forall (fun c => (1 <= length c <= 16)%nat) chunks ->
  Forall2 (answers_to E port baudrate) chunks answers ->
  answers = map padded_frame chunks.
Proof.
  intros Hdev Hlen Hans.
  induction Hans as [|c a cs as' (t & ->) _ IH]; [reflexivity|].
  inversion Hlen; subst. cbn [map]. rewrite Hdev by assumption.
  f_equal. now apply IH.
Qed.

(** ** The serial traffic of a round *)

Lemma added_emits (evs : list event) (w : world) : added w (emits evs w) = evs.
Proof.
  unfold added. cbn [trace emits].
  rewrite skipn_app, skipn_all, Nat.sub_diag. reflexivity.
Qed.

Lemma serial_events_app (a b : list event) :
  serial_events (a ++ b) = serial_events a ++ serial_events b.
Proof. apply filter_app. Qed.

Lemma serial_events_stdout (s : py_str) : serial_events [Stdout s] = [].
Proof. reflexivity. Qed.

Lemma serial_events_writes (vs : list pyval) :
  serial_events (map Write vs) = map Write vs.
Proof.
  induction vs as [|v vs IH]; [reflexivity|].
  cbn [map]. unfold serial_events in *. cbn [filter is_serial].
  now rewrite IH.
Qed.

Lemma frame_events_serial (port : py_str) (baudrate : Z) (chunk : py_bytes) :
  serial_events (frame_events port baudrate chunk)
  = frame_events port baudrate chunk.
Proof.
  rewrite frame_events_writes.
  rewrite !serial_events_app, serial_events_writes. reflexivity.
Qed.

Lemma transfer_events_serial (port : py_str) (baudrate : Z)
  (chunk answer : py_bytes) :
  serial_events (transfer_events port baudrate chunk answer)
  = transfer_events port baudrate chunk answer.
Proof.
  unfold transfer_events. rewrite serial_events_app, frame_events_serial.
  reflexivity.
Qed.

Section Traffic.

Variable E : env.
Variables (port : py_str) (baudrate : Z).

Lemma send_chunks_traffic (items : list (Z * py_bytes)) :
  Forall (fun it => snd it <> []) items ->
  forall output_chunks w,
  exists answers evs,
    send_chunks E port baudrate items output_chunks w
    = (Ok (output_chunks ++ answers), emits evs w) /\
    Forall2 (answers_to E port baudrate) (map snd items) answers /\
    serial_events evs
    = flat_map (fun ca => transfer_events port baudrate (fst ca) (snd ca))
        (combine (map snd items) answers).
Proof.
  induction 1 as [|[i c] items Hc _ IH]; intros output_chunks w;
    cbn [send_chunks].
  - exists [], []. rewrite app_nil_r. unfold emits. rewrite app_nil_r.
    destruct w. split; [reflexivity|]. split; [constructor|reflexivity].
  - rewrite write_chunk_calls by exact Hc.
    unfold read_chunk. cbv zeta.
    match goal with
    | |- context [send_chunks _ _ _ items (output_chunks ++ [?a]) ?w0] =>
        destruct (IH (output_chunks ++ [a]) w0)
          as (answers & evs & Hsend & Hans & Hser);
        set (answer := a) in *;
        exists (answer :: answers)
    end.
    exists ([Stdout ((lit "Sending chunk " ++ Py.str_of_int i ++ lit ": "
                      ++ Py.hex c) ++ lit " -> ")]
            ++ transfer_events port baudrate c answer
            ++ [Stdout (Py.hex answer ++ [newline])] ++ evs).
    split; [|split].
    + rewrite Hsend, <- app_assoc. f_equal.
      unfold print, print_end, emit, emits, transfer_events.
      cbn [trace enum_calls]. f_equal.
      rewrite <- !app_assoc. reflexivity.
    + cbn [map snd]. constructor; [|exact Hans]. subst answer.
      match goal with |- context [emits (frame_events _ _ _) ?w0] =>
        exists (trace w0)
      end.
      unfold at_read_back. cbn [trace emit emits].
      rewrite <- !app_assoc. reflexivity.
    + cbn [map snd combine flat_map fst].
      rewrite !serial_events_app, transfer_events_serial, Hser,
        !serial_events_stdout.
      reflexivity.
Qed.

Lemma session_round_traffic (input_text : py_str) (input_bytes : py_bytes)
  (w : world) :
  Py.encode input_text = Ok input_bytes ->
  exists input_chunks answers evs,
    divide_chunks input_bytes 16 = Ok input_chunks /\
    Forall2 (answers_to E port baudrate) input_chunks answers /\
    snd (session_round E port baudrate input_text w) = emits evs w /\
    serial_events evs
    = flat_map (fun ca => transfer_events port baudrate (fst ca) (snd ca))
        (combine input_chunks answers).
Proof.
  intros Henc. unfold session_round. rewrite Henc.
  destruct (divide_chunks_nonempty input_bytes) as (chunks & Hdiv & Hne & _).
  rewrite Hdiv.
  match goal with |- context [send_chunks _ _ _ ?items ?o ?w0] =>
    destruct (send_chunks_traffic items) with (output_chunks := o) (w := w0)
      as (answers & evs & Hsend & Hans & Hser)
  end.
  - apply Forall_forall. intros [i c] Hin. cbn [snd].
    apply in_combine_r in Hin. rewrite Forall_forall in Hne. now apply Hne.
  - rewrite enumerate_items in Hans, Hser.
    rewrite Hsend. cbn [app].
    exists chunks, answers.
    destruct (reconstruct answers input_text) as [output_text|e].
    + eexists. split; [reflexivity|]. split; [exact Hans|]. split.
      * cbn [snd]. rewrite !print_emits, !emits_emits. reflexivity.
      * rewrite !serial_events_app, Hser, !serial_events_stdout.
        cbn [app]. now rewrite ?app_nil_r.
    + eexists. split; [reflexivity|]. split; [exact Hans|]. split.
      * cbn [snd]. rewrite !print_emits, !emits_emits. reflexivity.
      * rewrite !serial_events_app, Hser, !serial_events_stdout.
        cbn [app]. now rewrite ?app_nil_r.
Qed.

End Traffic.

(** ** One frame *)

Lemma writes_open_nothing (vs : list pyval) :
  filter is_data_open (map Write vs) = [] /\
  filter is_sleep (map Write vs) = [].
Proof.
  induction vs as [|v vs IH]; [split; reflexivity|exact IH].
Qed.

Lemma frame_opens_once (port : py_str) (baudrate : Z) (chunk : py_bytes) :
  data_opens (frame_events port baudrate chunk) = 1%nat /\
  sleeps (frame_events port baudrate chunk) = 1%nat.
Proof.
  rewrite frame_events_writes. unfold data_opens, sleeps.
  cbn [app filter is_data_open is_sleep]. rewrite !filter_app.
  cbn [filter is_data_open is_sleep].
  match goal with |- context [map Write ?vs] =>
    destruct (writes_open_nothing vs) as [-> ->]
  end.
  split; reflexivity.
Qed.

Lemma frame_writes_length (port : py_str) (baudrate : Z) (chunk : py_bytes) :
  length (writes (frame_events port baudrate chunk))
  = Nat.max 16 (length chunk).
Proof.
  rewrite writes_frame, length_app, length_map, repeat_length. lia.
Qed.

(** ** The wire echoed *)

Lemma skipn_repeat {A : Type} (x : A) (n m : nat) :
  skipn n (repeat x m) = repeat x (m - n).
Proof.
  revert m; induction n as [|n IH]; intros m.
  - now rewrite Nat.sub_0_r.
  - destruct m as [|m]; [reflexivity|]. cbn [repeat skipn]. apply IH.
Qed.

Lemma firstn_repeat {A : Type} (x : A) (n m : nat) :
  firstn n (repeat x m) = repeat x (Nat.min n m).
Proof.
  revert m; induction n as [|n IH]; intros m; [reflexivity|].
  destruct m as [|m]; [reflexivity|].
  cbn [repeat firstn Nat.min]. now rewrite IH.
Qed.

(** Every byte of value one or more puts at least one zero on the wire. *)
Lemma wire_zeros (chunk : py_bytes) :
  Forall (fun b => 1 <= b) chunk ->
  exists n,
    (length chunk <= n)%nat /\
    flat_map (fun b => repeat 0 (Z.to_nat b)) chunk = repeat 0 n.
Proof.
  induction 1 as [|b chunk Hb _ (n & Hn & IH)].
  - now exists 0%nat.
  - exists (Z.to_nat b + n)%nat. split; [cbn [length]; lia|].
    cbn [flat_map]. now rewrite IH, repeat_app.
Qed.

Lemma window_of_zeros (n p skipped k : nat) :
  (k + p = 16)%nat -> (k <= n)%nat -> (skipped + 16 <= n + p)%nat ->
  exists z,
    (k <= z <= 16)%nat /\
    firstn 16 (skipn skipped (repeat 0 n ++ repeat 48 p))
    = repeat 0 z ++ repeat 48 (16 - z).
Proof.
  intros Hp Hk Hs. exists (Nat.min 16 (n - skipped)). split; [lia|].
  rewrite skipn_app, skipn_repeat, repeat_length.
  replace (skipped - n)%nat with 0%nat by lia. rewrite skipn_O.
  rewrite firstn_app, firstn_repeat, repeat_length, firstn_repeat.
  f_equal. f_equal. lia.
Qed.

Lemma echo_of_a_chunk (E : env) (port : py_str) (baudrate : Z)
  (chunk answer : py_bytes) :
  echoes_the_wire E port baudrate ->
  (1 <= length chunk <= 16)%nat -> Forall (fun b => 1 <= b) chunk ->
  answers_to E port baudrate chunk answer ->
  zeros_for chunk answer.
Proof.
  intros Hecho Hlen Hpos (before & ->).
  destruct (wire_zeros chunk Hpos) as (n & Hn & Hzeros).
  assert (Hwire : wire (frame_events port baudrate chunk)
                  = repeat 0 n ++ repeat 48 (16 - length chunk)).
  { now rewrite write_chunk_wire, Hzeros. }
  destruct (Hecho before chunk) as (skipped & Hs & ->).
  { rewrite Hwire, length_app, !repeat_length. lia. }
  rewrite Hwire in *. rewrite length_app, !repeat_length in Hs.
  apply (window_of_zeros n (16 - length chunk) skipped (length chunk)); lia.
Qed.

Lemma zeros_for_ascii (chunk answer : py_bytes) :
  zeros_for chunk answer -> Forall is_ascii answer.
Proof.
  intros (z & _ & ->). apply Forall_app. split.
  - apply Forall_forall. intros x Hx. apply repeat_spec in Hx. subst.
    unfold is_ascii. lia.
  - apply Forall_forall. intros x Hx. apply repeat_spec in Hx. subst.
    unfold is_ascii. lia.
Qed.

(** The answers, cut to the length of what was sent, are all zeros. *)
Lemma firstn_zero_frames (chunks answers : list py_bytes) :
  Forall2 zeros_for chunks answers ->
  (forall k, (S k < length chunks)%nat -> length (nth k chunks []) = 16%nat) ->
  firstn (length (concat chunks)) (concat answers)
  = repeat 0 (length (concat chunks)).
Proof.
  induction 1 as [|c a cs rest (z & Hz & ->) Hrest IH]; intros Hfull.
  - reflexivity.
  - cbn [concat]. rewrite length_app.
    destruct cs as [|c' cs'].
    + inversion Hrest; subst. cbn [concat length]. rewrite !app_nil_r.
      rewrite Nat.add_0_r, firstn_app, firstn_repeat, repeat_length.
      replace (length c - z)%nat with 0%nat by lia.
      cbn [firstn]. rewrite app_nil_r. f_equal. lia.
    + pose proof (Hfull 0%nat ltac:(simpl; lia)) as Hc. cbn [nth] in Hc.
      assert (z = 16%nat) as -> by lia. rewrite Hc.
      replace (repeat 48 (16 - 16)) with (@nil Z) by reflexivity.
      rewrite app_nil_r.
      set (sent := length (concat (c' :: cs'))) in *.
      rewrite firstn_app, firstn_repeat, repeat_length.
      replace (16 + sent - 16)%nat with sent by lia.
      rewrite IH.
      * rewrite <- repeat_app. f_equal. lia.
      * intros k Hk. apply (Hfull (S k)). simpl in *. lia.
Qed.

Section VerbatimEcho.

Variable E : env.
Variables (port : py_str) (baudrate : Z).
Hypothesis Hecho : echoes_the_wire E port baudrate.

Lemma echo_of_the_chunks (chunks answers : list py_bytes) :
  Forall (fun c => (1 <= length c <= 16)%nat) chunks ->
  Forall (Forall (fun b => 1 <= b)) chunks ->
  Forall2 (answers_to E port baudrate) chunks answers ->
  Forall2 zeros_for chunks answers.
Proof.
  intros Hlen Hpos Hans.
  induction Hans as [|c a cs rest Ha _ IH]; [constructor|].
  inversion Hlen; subst. inversion Hpos; subst.
  constructor; [|now apply IH]. now apply (echo_of_a_chunk E port baudrate).
Qed.

(** With the wire echoed, a round on ASCII text without the character NUL
    returns as many NUL characters as the text has characters. *)
Lemma session_round_echoes_zeros (input_text : py_str) (w : world) :
  Forall (fun c => 1 <= c <= 127) input_text ->
  fst (session_round E port baudrate input_text w)
  = Ok (repeat 0 (length input_text)).
Proof.
  intros Htext.
  assert (Hascii : Forall is_ascii input_text).
  { eapply Forall_impl; [|exact Htext]. unfold is_ascii. intros; lia. }
  pose proof (encode_ascii input_text Hascii) as Henc.
  destruct (session_round_answers E port baudrate input_text input_text w
              Henc) as (chunks & answers & w' & Hdiv & Hans & ->).
  destruct (divide_chunks_16 input_text)
    as (chunks' & Hdiv' & _ & Hcat & Hfull & _).
  rewrite Hdiv in Hdiv'. injection Hdiv' as <-.
  destruct (divide_chunks_lengths input_text) as (chunks' & Hdiv' & Hlen & _).
  rewrite Hdiv in Hdiv'. injection Hdiv' as <-.
  assert (Hpos : Forall (Forall (fun b => 1 <= b)) chunks).
  { apply Forall_concat. rewrite Hcat.
    eapply Forall_impl; [|exact Htext]. cbv beta. intros; lia. }
  pose proof (echo_of_the_chunks chunks answers Hlen Hpos Hans) as Hzeros.
  assert (Hdec : decode_each answers = Ok answers).
  { apply decode_each_ascii. clear - Hzeros.
    induction Hzeros as [|c a cs rest Ha _ IH]; constructor; [|exact IH].
    now apply (zeros_for_ascii c). }
  rewrite (reconstruct_spec answers input_text answers Hdec).
  cbn [fst]. f_equal. rewrite <- Hcat.
  now apply firstn_zero_frames.
Qed.

End VerbatimEcho.

Lemma zeros_are_not_the_text (input_text : py_str) :
  input_text <> [] -> Forall (fun c => 1 <= c <= 127) input_text ->
  repeat 0 (length input_text) <> input_text.
Proof.
  intros Hne Htext. destruct input_text as [|c r]; [congruence|].
  inversion Htext; subst. cbn [length repeat]. intros H. inversion H. lia.
Qed.

(** The loop-back plug of the bench echoes the wire. *)
Lemma wire_echo_echoes (ports_at : nat -> list py_str) (port : py_str)
  (baudrate : Z) :
  echoes_the_wire (bench ports_at wire_echo) port baudrate.
Proof.
  intros before chunk Hlen.
  set (frame := wire (frame_events port baudrate chunk)) in *.
  exists (length frame - 16)%nat. split; [lia|].
  cbn [device bench]. unfold wire_echo, last16, at_read_back, wire.
  rewrite !writes_app, !map_app, !concat_app. cbn [writes map concat].
  rewrite !app_nil_r. fold (wire (frame_events port baudrate chunk)).
  fold frame. rewrite length_app, skipn_app.
  replace (length (concat (map to_bytes (writes before))) + length frame - 16
           - length (concat (map to_bytes (writes before))))%nat
    with (length frame - 16)%nat by lia.
  rewrite skipn_all2 by lia. cbn [app].
  symmetry. apply firstn_all2. rewrite length_skipn. lia.
Qed.

(** * The claims *)

(** C1.  For every payload P, [divide_chunks P 16] returns the slices
    P[0:16], P[16:32], ... in order; their concatenation is P; every chunk
    but the last has sixteen bytes and the last has between one and
    sixteen; there is no chunk exactly when P is empty; and the number of
    chunks is the ceiling of len(P)/16. *)
Theorem divide_chunks_partitions (P : py_bytes) :
  exists chunks,
    UartInterface.divide_chunks P 16 = Ok chunks /\
    chunks = map (fun k => firstn 16 (skipn (16 * k) P))
               (seq 0 (length chunks)) /\
    concat chunks = P /\
    Forall (fun c => length c = 16%nat) (removelast chunks) /\
    Forall (fun c => (1 <= length c <= 16)%nat) chunks /\
    (chunks = [] <-> P = []) /\
    len chunks = (len P + 15) / 16 /\
    16 * (len chunks - 1) < len P <= 16 * len chunks.
Proof.
  destruct (divide_chunks_16 P)
    as (chunks & Hdiv & Hnth & Hcat & Hfull & Hlast & Hnil & Hcount).
  exists chunks. split; [exact Hdiv|].
  split.
  { apply nth_ext with (d := []) (d' := firstn 16 (skipn (16 * 0) P)).
    - now rewrite length_map, length_seq.
    - intros k Hk.
      rewrite (map_nth (fun k => firstn 16 (skipn (16 * k) P))).
      rewrite seq_nth by lia. now apply Hnth. }
  split; [exact Hcat|].
  split.
  { apply Forall_forall. intros c Hc.
    destruct (In_nth _ _ [] Hc) as (k & Hk & <-).
    assert (Hne : chunks <> []).
    { intros ->. simpl in Hk. lia. }
    pose proof (f_equal (@length _) (app_removelast_last [] Hne)) as Hl.
    rewrite length_app in Hl. cbn [length] in Hl. unfold py_bytes in *.
    rewrite <- (Hfull k) by lia.
    rewrite (app_removelast_last [] Hne) at 2.
    rewrite app_nth1 by exact Hk. reflexivity. }
  split.
  { destruct (divide_chunks_lengths P) as (cs & Hcs & Hlen & _).
    rewrite Hdiv in Hcs. inversion Hcs; subst. exact Hlen. }
  split; [exact Hnil|].
  split; [exact Hcount|].
  rewrite Hcount. unfold len.
  pose proof (Z.div_mod (Z.of_nat (length P) + 15) 16 ltac:(lia)).
  pose proof (Z.mod_pos_bound (Z.of_nat (length P) + 15) 16 ltac:(lia)).
  lia.
Qed.

(** C2 (code defect).  The claim: a chunk of k bytes goes out as its k
    bytes, one write call each, followed by 16 - k filler bytes.  For the
    one-byte chunk [b"A"], [write_chunk] makes sixteen write calls, fifteen
    of them handed [b'0'], but the first is handed the integer 65 and not
    the byte: the port turns it into sixty-five zero bytes, so eighty bytes
    reach the wire and the byte 0x41 is not among them. *)
Theorem write_chunk_hands_an_integer_to_write :
  let t := trace (snd (UartInterface.write_chunk (lit "A") ttyUSB0 230400
                         start)) in
  writes t = PyInt 65 :: repeat (PyBytes (lit "0")) 15 /\
  wire t = repeat 0 65 ++ repeat 48 15 /\
  length (wire t) = 80%nat /\
  wire t <> padded_frame (lit "A").
Proof.
  cbv zeta. repeat split; try (vm_compute; reflexivity).
  vm_compute. discriminate.
Qed.

(** C3 (code defect).  The claim: a verbatim echo of the fixed payload is
    reported as "SUCCESS".  With one port and a loop-back plug the script
    reads the payload back unchanged, and the line it prints last is
    "SUCCES"; the word "SUCCESS" is never printed. *)
Theorem self_test_prints_SUCCES :
  exists w,
    UartInterfaceLoopback.script one_port [] = (Ok tt, w) /\
    In (Read 16 payload) (trace w) /\
    last (trace w) (Stdout []) = Stdout (lit "SUCCES" ++ [newline]) /\
    printed (lit "SUCCESS") (trace w) = false.
Proof.
  eexists. split; [vm_compute; reflexivity|].
  split; [|split; vm_compute; reflexivity].
  vm_compute. tauto.
Qed.

(** C4, as stated, fails.  The claim: the self-test's exchange waits 100 ms
    after opening, writes byte by byte and reads back on a second
    connection, as [write_chunk] and [read_chunk] do.  On the bench the
    self-test's exchange is four events on one connection, with no delay
    and one write of the whole payload; the session's transfer of the same
    payload opens twice, sleeps twice and writes sixteen times. *)
Lemma self_test_exchange_is_not_a_transfer :
  let self_test :=
    trace (snd (UartInterfaceLoopback.exchange one_port ttyUSB0 115200
                  payload start)) in
  let session :=
    serial_events
      (trace (snd (UartInterface.send_chunks one_port ttyUSB0 115200
                     [(0, payload)] [] start))) in
  self_test = [Open ttyUSB0 (Some 115200); Write (PyBytes payload);
               Read 16 payload; Close ttyUSB0] /\
  (sleeps self_test = 0 /\ length (writes self_test) = 1
   /\ data_opens self_test = 1)%nat /\
  (sleeps session = 2 /\ length (writes session) = 16
   /\ data_opens session = 2)%nat /\
  self_test <> session /\
  self_test <> transfer_contract ttyUSB0 115200 payload payload.
Proof.
  cbv zeta. repeat split; try (vm_compute; reflexivity);
    vm_compute; discriminate.
Qed.

(** C4, amended.  When [main] returns, everything before the exchange is
    console traffic and port probing; the exchange itself is one connection
    at 115200 baud on which the whole payload is written in a single call
    and sixteen bytes are read back, with no settling delay; and what
    [main] returns is what that read returned. *)
Theorem self_test_exchange (E : env) (input_bytes : py_bytes)
  (lines : console) (w : world) (output_bytes : py_bytes) (lines' : console)
  (w' : world) :
  UartInterfaceLoopback.main E input_bytes lines w
  = (Ok output_bytes, lines', w') ->
  exists port before,
    Forall is_preparation before /\
    trace w' = trace w ++ before
               ++ [Open port (Some 115200); Write (PyBytes input_bytes);
                   Read 16 output_bytes; Close port] /\
    output_bytes
    = device E (trace w ++ before
                ++ [Open port (Some 115200); Write (PyBytes input_bytes)]).
Proof.
  unfold UartInterfaceLoopback.main, UartInterfaceLoopback.choose_port,
    UartInterfaceLoopback.choose_baudrate.
  cbn [UartInterfaceLoopback.DEFAULT_PORT
       UartInterfaceLoopback.DEFAULT_BAUDRATE
       UartInterfaceLoopback.baudrate_is_set].
  change (negb (115200 =? 0)) with true. cbv iota.
  set (w1 := print (lit "Default serial port is not set.")
               (print UartInterfaceLoopback.TITLE w)).
  assert (H1 : extends is_preparation 0 w w1).
  { unfold w1. rewrite !print_emits, emits_emits.
    apply extends_emits. repeat constructor. }
  destruct (loopback_menu_prepares E lines w1) as (n & H2).
  destruct (UartInterfaceLoopback.serial_port_menu E lines w1)
    as [[[port|e] ls] w2];
    cbn [snd] in H2; [|discriminate].
  match goal with
  | |- context [UartInterfaceLoopback.exchange E port 115200 input_bytes ?w0] =>
      set (w3 := w0)
  end.
  assert (H3 : extends is_preparation 0 w2 w3).
  { unfold w3. rewrite !print_emits, !emits_emits.
    apply extends_emits. repeat constructor. }
  pose proof (extends_trans _ _ _ _ _ _ (extends_trans _ _ _ _ _ _ H1 H2) H3)
    as [_ (before & Hbefore & Hprep)].
  clearbody w1 w3. rewrite exchange_spec. intros H. inversion H; subst. clear H.
  exists port, before. split; [exact Hprep|].
  cbn [trace emits]. rewrite Hbefore, <- !app_assoc. split; reflexivity.
Qed.

(** C4 on the bench: one port with a loop-back plug, no input needed. *)
Lemma self_test_exchange_witness :
  UartInterfaceLoopback.main one_port payload [] start
  = (Ok payload, [],
     snd (UartInterfaceLoopback.main one_port payload [] start)) /\
  exists port before,
    Forall is_preparation before /\
    trace (snd (UartInterfaceLoopback.main one_port payload [] start))
    = trace start ++ before
      ++ [Open port (Some 115200); Write (PyBytes payload);
          Read 16 payload; Close port] /\
    payload
    = device one_port (trace start ++ before
                       ++ [Open port (Some 115200); Write (PyBytes payload)]).
Proof.
  split; [vm_compute; reflexivity|].
  apply (self_test_exchange one_port payload [] start payload []).
  vm_compute. reflexivity.
Defined.

(** C5 (code defect).  The claim: a literal that holds a character that is
    no hexadecimal digit is rejected before any serial I/O.  A literal of
    thirty hexadecimal digits and two spaces has thirty-two characters and
    [bytes.fromhex] skips the spaces: the script goes on with a payload of
    fifteen bytes, opens the port and writes it. *)
Theorem self_test_accepts_a_literal_with_spaces :
  let literal := lit "000102030405060708090a0b0c0d0e  " in
  len literal = 32 /\
  Exists (fun c => Py.hexval c = None) literal /\
  exists w,
    UartInterfaceLoopback.script_with one_port literal [] = (Ok tt, w) /\
    In (Open ttyUSB0 (Some 115200)) (trace w) /\
    In (Write (PyBytes (Py.range1 15))) (trace w).
Proof.
  cbv zeta. split; [reflexivity|]. split.
  - apply Exists_exists. exists 32. split; [|reflexivity].
    vm_compute. tauto.
  - eexists. split; [vm_compute; reflexivity|].
    split; vm_compute; tauto.
Qed.

(** C6 (code defect).  The claim: an integer outside 0..n-1 makes the menu
    ask again and never returns a port.  With three ports shown as 0, 1 and
    2, the answer "-1" is an integer outside 0..2, and both menus return the
    last port without any out-of-range message. *)
Theorem menu_takes_minus_one_for_the_last_port :
  Py.int (lit "-1") = Ok (-1) /\
  (exists w,
     UartInterface.serial_port_menu three_ports [lit "-1"] start
     = (Ok ttyACM0, [], w) /\
     printed (out_of_range (-1)) (trace w) = false) /\
  (exists w,
     UartInterfaceLoopback.serial_port_menu three_ports [lit "-1"] start
     = (Ok ttyACM0, [], w) /\
     printed (out_of_range (-1)) (trace w) = false).
Proof.
  split; [reflexivity|].
  split; eexists; (split; [vm_compute; reflexivity|vm_compute; reflexivity]).
Qed.




(** C8.  Let the first [k] enumerations of a run of either menu be empty.
    With fewer than [k] lines of input the menu raises [EOFError] and
    returns no port.  With [k] lines or more, and [ports] found by the next
    enumeration, the menu has shown the retry prompt exactly [k] times,
    taken one line of input for each, has enumerated [k + 1] times, and a
    port it returns is one of [ports]. *)
Theorem serial_port_menu_waits_for_a_port (E : env) (k : nat)
  (ports : list py_str) (lines : console) (w : world) :
  (forall j, (j < k)%nat -> enumeration E (enum_calls w + j) = Ok []) ->
  ((length lines < k)%nat ->
   gave_up (UartInterface.serial_port_menu E lines w) /\
   gave_up (UartInterfaceLoopback.serial_port_menu E lines w)) /\
  ((k <= length lines)%nat ->
   enumeration E (enum_calls w + k) = Ok ports ->
   ports <> [] ->
   went_on k ports lines w (UartInterface.serial_port_menu E lines w) /\
   went_on k ports lines w (UartInterfaceLoopback.serial_port_menu E lines w)).
Proof.
  intros Hempty. split.
  - intros Hshort. split.
    + rewrite session_menu_unfold. now apply (menu_gives_up E k).
    + rewrite loopback_menu_unfold. now apply (menu_gives_up E k).
  - intros Hlong Hfound Hne. split.
    + now apply session_menu_goes_on.
    + now apply loopback_menu_goes_on.
Qed.

(** C8 on the bench: nothing is plugged in at the first enumeration, the
    operator presses enter and then picks port 1; and the same bench when
    the operator has left. *)
Lemma serial_port_menu_waits_witness :
  (went_on 1 [ttyUSB0; ttyUSB1; ttyACM0] [lit ""; lit "1"] start
     (UartInterface.serial_port_menu plugged_late [lit ""; lit "1"] start) /\
   went_on 1 [ttyUSB0; ttyUSB1; ttyACM0] [lit ""; lit "1"] start
     (UartInterfaceLoopback.serial_port_menu plugged_late [lit ""; lit "1"]
        start)) /\
  (gave_up (UartInterface.serial_port_menu plugged_late [] start) /\
   gave_up (UartInterfaceLoopback.serial_port_menu plugged_late [] start)).
Proof.
  assert (Hempty : forall j, (j < 1)%nat ->
            enumeration plugged_late (enum_calls start + j) = Ok []).
  { intros j Hj. assert (j = 0%nat) as -> by lia. reflexivity. }
  split.
  - apply (serial_port_menu_waits_for_a_port plugged_late 1
             [ttyUSB0; ttyUSB1; ttyACM0] [lit ""; lit "1"] start Hempty).
    + simpl. lia.
    + reflexivity.
    + discriminate.
  - apply (serial_port_menu_waits_for_a_port plugged_late 1 [] [] start
             Hempty).
    simpl. lia.
Defined.

(** C9.  [write_chunk] on an empty chunk raises [UnboundLocalError] after
    opening the port and before any write, so no frame of sixteen fillers
    is sent.  [divide_chunks] with chunk size 16 never yields an empty chunk
    and yields no chunk at all for an empty payload, so neither a round of
    the session loop nor the loop itself can end in that error. *)
Theorem write_chunk_needs_a_byte :
  (forall port baudrate w,
     UartInterface.write_chunk [] port baudrate w
     = (Raise UnboundLocalError,
        emits [Open port (Some baudrate); Sleep 100; Close port] w)) /\
  UartInterface.divide_chunks [] 16 = Ok [] /\
  (forall data, exists chunks,
     UartInterface.divide_chunks data 16 = Ok chunks /\
     Forall (fun c => c <> []) chunks) /\
  (forall E port baudrate input_text w,
     fst (UartInterface.session_round E port baudrate input_text w)
     <> Raise UnboundLocalError) /\
  (forall E port baudrate lines w,
     fst (UartInterface.session_loop E port baudrate lines w)
     <> UnboundLocalError).
Proof.
  split; [apply write_chunk_empty|].
  split; [reflexivity|].
  split.
  - intros data.
    destruct (divide_chunks_nonempty data) as (chunks & Hdiv & Hne & _).
    eauto.
  - split.
    + apply session_round_never_unbound.
    + apply session_loop_never_unbound.
Qed.

(** C10 (code defect).  The claim has two halves.  The first holds: one
    answer that is not valid UTF-8 makes the rebuilding raise
    [UnicodeDecodeError], and with a device whose answers never decode a
    round that has something to send ends in that error.  The second, that
    with a device that echoes each transmitted frame verbatim an ASCII text
    comes back, does not: [write_chunk] hands every byte of the chunk to
    [write] as an integer, which puts that many zero bytes on the wire
    (C2), so what a verbatim echo returns for a chunk is zeros and
    fillers.  A round on a text of ASCII characters other than NUL then
    returns as many NUL characters as the text is long, and never the
    text.  The rebuilding itself is sound: from the frames as they were
    meant, each chunk followed by its padding, it gives the text back. *)
Theorem a_verbatim_echo_gives_back_zeros (E E' : env) (port : py_str)
  (baudrate : Z) (w : world) (input_text : py_str)
  (output_chunks : list py_bytes) :
  Exists undecodable output_chunks ->
  (forall t, undecodable (device E' t)) ->
  echoes_the_wire E port baudrate ->
  input_text <> [] ->
  Forall (fun c => 1 <= c <= 127) input_text ->
  UartInterface.reconstruct output_chunks input_text
  = Raise UnicodeDecodeError /\
  fst (UartInterface.session_round E' port baudrate input_text w)
  = Raise UnicodeDecodeError /\
  fst (UartInterface.session_round E port baudrate input_text w)
  = Ok (repeat 0 (length input_text)) /\
  repeat 0 (length input_text) <> input_text /\
  (exists input_chunks,
     Py.encode input_text = Ok input_text /\
     UartInterface.divide_chunks input_text 16 = Ok input_chunks /\
     Forall (fun c => Py.decode (padded_frame c) = Ok (padded_frame c))
       input_chunks /\
     UartInterface.reconstruct (map padded_frame input_chunks) input_text
     = Ok input_text).
Proof.
  intros Hbad Hgarbled Hecho Hne Htext.
  assert (Hascii : Forall is_ascii input_text).
  { eapply Forall_impl; [|exact Htext]. unfold is_ascii. cbv beta.
    intros; lia. }
  split; [now apply reconstruct_undecodable|].
  split.
  { apply (session_round_undecodable E' port baudrate input_text input_text);
      auto using encode_ascii. }
  split; [now apply session_round_echoes_zeros|].
  split; [now apply zeros_are_not_the_text|].
  now apply reconstruct_ascii.
Qed.

(** C10 on the bench: a text of two chunks, a loop-back plug that returns
    the last sixteen bytes on the wire, and a device that answers with
    sixteen bytes 0xff. *)
Lemma a_verbatim_echo_gives_back_zeros_witness :
  let text := lit "Hello, UART loop-back" in
  UartInterface.reconstruct [padded_frame (lit "ok"); repeat 255 16] text
  = Raise UnicodeDecodeError /\
  fst (UartInterface.session_round (bench (fun _ => [ttyUSB0]) garbled)
         ttyUSB0 230400 text start)
  = Raise UnicodeDecodeError /\
  fst (UartInterface.session_round one_port ttyUSB0 230400 text start)
  = Ok (repeat 0 (length text)) /\
  repeat 0 (length text) <> text /\
  (exists input_chunks,
     Py.encode text = Ok text /\
     UartInterface.divide_chunks text 16 = Ok input_chunks /\
     Forall (fun c => Py.decode (padded_frame c) = Ok (padded_frame c))
       input_chunks /\
     UartInterface.reconstruct (map padded_frame input_chunks) text
     = Ok text).
Proof.
  apply (a_verbatim_echo_gives_back_zeros
           one_port (bench (fun _ => [ttyUSB0]) garbled)
           ttyUSB0 230400 start (lit "Hello, UART loop-back")
           [padded_frame (lit "ok"); repeat 255 16]).
  - apply Exists_cons_tl, Exists_cons_hd. reflexivity.
  - intros t. reflexivity.
  - apply wire_echo_echoes.
  - discriminate.
  - apply Forall_forall. intros c Hc. vm_compute in Hc.
    repeat (destruct Hc as [<-|Hc]; [lia|]). destruct Hc.
Defined.

(** * Further properties *)

(** X1.  On a platform it knows, [serial_ports] returns the candidate paths
    that open, in the order of the candidates; it probes every candidate
    once, closes every port it opened before it tries the next, and leaves
    none open.  On any other platform it raises [EnvironmentError] before
    it touches a port. *)
Theorem serial_ports_returns_what_opens (sys : system) :
  if supported sys then
    exists ports found evs,
      candidates sys = Ok ports /\
      serial_ports sys = (Ok found, evs) /\
      found = filter (openable sys) ports /\
      evs = flat_map (probe_events sys) ports /\
      disciplined evs
  else serial_ports sys = (Raise EnvironmentError, []).
Proof.
  pose proof (candidates_supported sys) as H. rewrite serial_ports_filter.
  destruct (supported sys).
  - destruct H as (ports & ->). exists ports. do 2 eexists.
    repeat split. apply probes_disciplined.
  - now rewrite H.
Qed.

(** X2.  On Windows the ports found are among COM1 to COM256, each at most
    once, and are exactly those of these names that open. *)
Theorem serial_ports_on_windows (sys : system) :
  Py.startswith (platform sys) (lit "win") = true ->
  exists found,
    fst (serial_ports sys) = Ok found /\
    NoDup found /\
    (length found <= 256)%nat /\
    (forall p,
       In p found <->
       (exists i, 1 <= i <= 256 /\ p = lit "COM" ++ Py.str_of_int i)
       /\ openable sys p = true).
Proof.
  intros Hwin. rewrite serial_ports_filter. unfold candidates. rewrite Hwin.
  set (names := map (fun i => lit "COM" ++ Py.str_of_int (i + 1))
                  (Py.range1 256)).
  assert (Hnames : forall p,
            In p names <->
            exists i, 1 <= i <= 256 /\ p = lit "COM" ++ Py.str_of_int i).
  { intros p. unfold names, Py.range1, Py.range2. rewrite map_map, in_map_iff.
    split.
    - intros (k & <- & Hk). apply in_seq in Hk.
      exists (0 + Z.of_nat k + 1). split; [lia|reflexivity].
    - intros (i & Hi & ->). exists (Z.to_nat (i - 1)). split.
      + do 2 f_equal. lia.
      + apply in_seq. change (Z.to_nat (256 - 0)) with 256%nat. lia. }
  assert (Hnodup : NoDup names).
  { unfold names, Py.range1, Py.range2. rewrite map_map.
    apply Injective_map_NoDup; [|apply seq_NoDup].
    intros a b Hab. apply app_inv_head in Hab.
    apply str_of_int_inj in Hab. lia. }
  exists (filter (openable sys) names). cbn [fst].
  split; [reflexivity|]. split; [now apply NoDup_filter|]. split.
  - etransitivity; [apply filter_length_le|].
    unfold names, Py.range1, Py.range2. now rewrite !length_map, length_seq.
  - intros p. now rewrite filter_In, Hnames.
Qed.

(** X2 on the bench: a Windows machine where COM3 and COM7 open. *)
Lemma serial_ports_on_windows_witness :
  fst (serial_ports windows_bench) = Ok [lit "COM3"; lit "COM7"] /\
  exists found,
    fst (serial_ports windows_bench) = Ok found /\
    NoDup found /\
    (length found <= 256)%nat /\
    (forall p,
       In p found <->
       (exists i, 1 <= i <= 256 /\ p = lit "COM" ++ Py.str_of_int i)
       /\ openable windows_bench p = true).
Proof.
  split; [vm_compute; reflexivity|].
  apply (serial_ports_on_windows windows_bench). reflexivity.
Defined.

(** X3.  The session's baud-rate menu turns down every line that is not
    empty and not an integer, with one error line each, and stops at the
    first line that is empty, which gives the default 230400, or an
    integer, which is returned as it is, whatever its value; the lines
    after it are left unread.  When every line is turned down it ends in
    [EOFError]. *)
Theorem session_baudrate_menu_first_answer (rejected rest : console)
  (resp : py_str) (accepted : Z) (w : world) :
  Forall (fun l => l <> [] /\ Py.int l = Raise ValueError) rejected ->
  (resp = [] /\ accepted = 230400)
  \/ (resp <> [] /\ Py.int resp = Ok accepted) ->
  let skipped :=
    fold_left (fun w l => print wrong_type (session_baudrate_asks l w))
      rejected w in
  UartInterface.baudrate_menu (rejected ++ resp :: rest) w
  = (Ok accepted, rest, session_baudrate_asks resp skipped) /\
  fst (fst (UartInterface.baudrate_menu rejected w)) = Raise EOFError.
Proof.
  intros Hrej Hresp. cbv zeta. split.
  - rewrite session_baudrate_menu_skips by exact Hrej.
    cbn [UartInterface.baudrate_menu].
    destruct Hresp as [[-> ->]|[Hne Hint]]; [reflexivity|].
    destruct resp as [|c resp']; [congruence|]. now rewrite Hint.
  - rewrite <- (app_nil_r rejected).
    now rewrite session_baudrate_menu_skips by exact Hrej.
Qed.

(** X3 on the bench: "fast" and a line that opens with the separator
    U+001C are turned down; the Arabic-Indic digit three is taken as 3, and
    so is "-5". *)
Lemma session_baudrate_menu_witness :
  fst (UartInterface.baudrate_menu
         [lit "fast"; [28; 49]; [1635]; lit "115200"] start)
  = (Ok 3, [lit "115200"]) /\
  fst (UartInterface.baudrate_menu [lit "-5"; lit "115200"] start)
  = (Ok (-5), [lit "115200"]) /\
  fst (fst (UartInterface.baudrate_menu [lit "fast"; [28; 49]] start))
  = Raise EOFError.
Proof.
  destruct (session_baudrate_menu_first_answer
              [lit "fast"; [28; 49]] [lit "115200"] [1635] 3 start)
    as [H1 H2].
  - repeat constructor; discriminate.
  - right. split; [discriminate|reflexivity].
  - split; [exact (f_equal fst H1)|]. split; [reflexivity|exact H2].
Defined.

(** X4.  The self-test's baud-rate menu has no default: it turns down every
    line that is not an integer, the empty line included, with one error
    line each, and returns the first integer as it is; when every line is
    turned down it ends in [EOFError]. *)
Theorem loopback_baudrate_menu_first_answer (rejected rest : console)
  (resp : py_str) (accepted : Z) (w : world) :
  Forall (fun l => Py.int l = Raise ValueError) rejected ->
  Py.int resp = Ok accepted ->
  let skipped :=
    fold_left (fun w l => print wrong_type (loopback_baudrate_asks l w))
      rejected w in
  UartInterfaceLoopback.baudrate_menu (rejected ++ resp :: rest) w
  = (Ok accepted, rest, loopback_baudrate_asks resp skipped) /\
  fst (fst (UartInterfaceLoopback.baudrate_menu rejected w)) = Raise EOFError /\
  UartInterfaceLoopback.baudrate_menu ([] :: resp :: rest) w
  = (Ok accepted, rest,
     loopback_baudrate_asks resp
       (print wrong_type (loopback_baudrate_asks [] w))).
Proof.
  intros Hrej Hint. cbv zeta. split; [|split].
  - rewrite loopback_baudrate_menu_skips by exact Hrej.
    cbn [UartInterfaceLoopback.baudrate_menu]. now rewrite Hint.
  - rewrite <- (app_nil_r rejected).
    now rewrite loopback_baudrate_menu_skips by exact Hrej.
  - cbn [UartInterfaceLoopback.baudrate_menu].
    change (Py.int []) with (@Raise Z ValueError). cbv iota.
    now rewrite Hint.
Qed.

(** X4 on the bench: the empty line, "fast", a line that opens with the
    separator U+001C and a number of 4301 digits are turned down; "9600"
    in full-width digits is taken as 9600. *)
Lemma loopback_baudrate_menu_witness :
  fst (UartInterfaceLoopback.baudrate_menu
         [lit ""; lit "fast"; [28; 49]; repeat 49 4301;
          [65305; 65302; 65296; 65296]; lit "1"] start)
  = (Ok 9600, [lit "1"]).
Proof.
  destruct (loopback_baudrate_menu_first_answer
              [lit ""; lit "fast"; [28; 49]; repeat 49 4301] [lit "1"]
              [65305; 65302; 65296; 65296] 9600 start)
    as [H1 _].
  - repeat (apply Forall_cons; [vm_compute; reflexivity|]). apply Forall_nil.
  - reflexivity.
  - exact (f_equal fst H1).
Defined.




(** X7.  On a platform [serial_ports] does not know, the session script
    ends in [EnvironmentError] when it has printed its banner and nothing
    else, and the self-test when it has printed its banner and the line on
    the default port: neither reads a line of input or touches a port. *)
Theorem scripts_stop_on_an_unknown_platform (E : env) (lines : console) :
  supported (system_at E 0) = false ->
  fst (UartInterface.script E lines) = EnvironmentError /\
  trace (snd (UartInterface.script E lines))
  = [Stdout (UartInterface.TITLE ++ [newline])] /\
  fst (UartInterfaceLoopback.script E lines) = Raise EnvironmentError /\
  trace (snd (UartInterfaceLoopback.script E lines))
  = [Stdout (UartInterfaceLoopback.TITLE ++ [newline]);
     Stdout (lit "Default serial port is not set." ++ [newline])].
Proof.
  intros Hsys.
  split; [|split; [|split]].
  - unfold UartInterface.script, UartInterface.serial_port_menu.
    destruct (first_enumeration_unsupported E
                (print UartInterface.TITLE start) Hsys) as [Hr _].
    destruct (call_serial_ports E _) as [r w1]. cbn [fst] in Hr.
    now rewrite Hr.
  - unfold UartInterface.script, UartInterface.serial_port_menu.
    destruct (first_enumeration_unsupported E
                (print UartInterface.TITLE start) Hsys) as [Hr Ht].
    destruct (call_serial_ports E _) as [r w1]. cbn [fst snd] in Hr, Ht.
    rewrite Hr. exact Ht.
  - unfold UartInterfaceLoopback.script, UartInterfaceLoopback.script_with.
    change (len UartInterfaceLoopback.input_data =? 32) with true.
    change (Py.fromhex UartInterfaceLoopback.input_data) with (Ok payload).
    cbn [negb].
    unfold UartInterfaceLoopback.main, UartInterfaceLoopback.choose_port,
      UartInterfaceLoopback.serial_port_menu,
      UartInterfaceLoopback.call_serial_ports.
    cbn [UartInterfaceLoopback.DEFAULT_PORT].
    match goal with |- context [call_serial_ports E ?w0] =>
      destruct (first_enumeration_unsupported E w0 Hsys) as [Hr _];
      destruct (call_serial_ports E w0) as [r w1]
    end.
    cbn [fst] in Hr. now rewrite Hr.
  - unfold UartInterfaceLoopback.script, UartInterfaceLoopback.script_with.
    change (len UartInterfaceLoopback.input_data =? 32) with true.
    change (Py.fromhex UartInterfaceLoopback.input_data) with (Ok payload).
    cbn [negb].
    unfold UartInterfaceLoopback.main, UartInterfaceLoopback.choose_port,
      UartInterfaceLoopback.serial_port_menu,
      UartInterfaceLoopback.call_serial_ports.
    cbn [UartInterfaceLoopback.DEFAULT_PORT].
    match goal with |- context [call_serial_ports E ?w0] =>
      destruct (first_enumeration_unsupported E w0 Hsys) as [Hr Ht];
      destruct (call_serial_ports E w0) as [r w1]
    end.
    cbn [fst snd] in Hr, Ht. rewrite Hr. exact Ht.
Qed.

(** X7 on the bench: a FreeBSD machine, whatever is typed. *)
Lemma scripts_stop_on_an_unknown_platform_witness :
  fst (UartInterface.script unknown_bench [lit "0"; lit ""])
  = EnvironmentError /\
  fst (UartInterfaceLoopback.script unknown_bench [lit "0"])
  = Raise EnvironmentError.
Proof.
  split.
  - apply (scripts_stop_on_an_unknown_platform unknown_bench
             [lit "0"; lit ""]). reflexivity.
  - apply (scripts_stop_on_an_unknown_platform unknown_bench [lit "0"]).
    reflexivity.
Defined.

(** X8.  Whatever the machine, the device, the input and the literal, and
    however they end, both scripts use the serial line in good order: a port
    is opened only when none is open, written to and read from only while
    it is open, closed before the next is opened, and none is open when the
    script ends. *)
Theorem scripts_keep_the_line_in_order (E : env) (lines : console)
  (literal : py_str) :
  disciplined (trace (snd (UartInterface.script E lines))) /\
  disciplined (trace (snd (UartInterfaceLoopback.script_with E literal lines))).
Proof.
  split.
  - destruct (tidy_session_script E lines) as (evs & -> & H). exact H.
  - destruct (tidy_self_test E literal lines) as (evs & -> & H). exact H.
Qed.

(** X9.  [divide_chunks] for any chunk size.  With a positive size the
    chunks concatenate to the data, each holds between one byte and the
    size, all but the last hold exactly the size, and their number is the
    length divided by the size, rounded up.  A size of zero is a
    [ValueError]; a negative size gives no chunk at all, whatever the
    data. *)
Theorem divide_chunks_with_any_size (data : py_bytes) (chunk_size : Z) :
  (0 < chunk_size ->
   exists chunks,
     divide_chunks data chunk_size = Ok chunks /\
     concat chunks = data /\
     Forall (fun ch => 1 <= len ch <= chunk_size) chunks /\
     Forall (fun ch => len ch = chunk_size) (removelast chunks) /\
     chunk_size * (len chunks - 1) < len data <= chunk_size * len chunks) /\
  (chunk_size = 0 -> divide_chunks data chunk_size = Raise ValueError) /\
  (chunk_size < 0 -> divide_chunks data chunk_size = Ok []).
Proof.
  split; [apply divide_chunks_positive|]. split.
  - intros ->. reflexivity.
  - intros Hneg. unfold divide_chunks, Py.range.
    replace (chunk_size =? 0) with false by lia.
    replace (0 <? chunk_size) with false by lia.
    destruct (Z.ltb_spec (len data) 0) as [H|H]; [|reflexivity].
    unfold len in H. lia.
Qed.

(** X10.  [write_chunk] on any chunk that is not empty returns normally
    after one connection and one delay.  Its write calls are one per byte
    of the chunk, in order, then one filler for each position short of
    sixteen: sixteen calls or the length of the chunk, whichever is more.
    A chunk longer than sixteen bytes is neither cut nor refused. *)
Theorem write_chunk_sends_any_chunk_whole (chunk : py_bytes) (port : py_str)
  (baudrate : Z) (w : world) :
  chunk <> [] ->
  let sent := added w (snd (write_chunk chunk port baudrate w)) in
  fst (write_chunk chunk port baudrate w) = Ok tt /\
  writes sent
  = map PyInt chunk ++ repeat (PyBytes (lit "0")) (16 - length chunk) /\
  length (writes sent) = Nat.max 16 (length chunk) /\
  data_opens sent = 1%nat /\ sleeps sent = 1%nat /\
  disciplined sent.
Proof.
  intros Hne. cbv zeta. rewrite write_chunk_calls by exact Hne.
  cbn [fst snd]. rewrite added_emits.
  split; [reflexivity|]. split; [apply writes_frame|].
  split; [apply frame_writes_length|].
  split; [apply frame_opens_once|]. split; [apply frame_opens_once|].
  rewrite frame_events_writes. apply write_connection_disciplined.
Qed.

(** X10 on the bench: seventeen bytes make seventeen write calls and no
    filler. *)
Lemma write_chunk_sends_any_chunk_whole_witness :
  let chunk := Py.range1 17 in
  let sent := added start (snd (write_chunk chunk ttyUSB0 9600 start)) in
  fst (write_chunk chunk ttyUSB0 9600 start) = Ok tt /\
  writes sent
  = map PyInt chunk ++ repeat (PyBytes (lit "0")) (16 - length chunk) /\
  length (writes sent) = Nat.max 16 (length chunk) /\
  data_opens sent = 1%nat /\ sleeps sent = 1%nat /\
  disciplined sent.
Proof.
  apply (write_chunk_sends_any_chunk_whole (Py.range1 17) ttyUSB0 9600 start).
  discriminate.
Defined.



(** X12.  The self-test for any payload of sixteen bytes whose literal is
    written as [bytes.hex] writes it: the literal passes both checks, the
    payload sent is that payload, and the word printed last is SUCCES when
    the sixteen bytes read back are the payload and FAIL in every other
    case. *)
Theorem self_test_compares_with_its_payload (E : env) (p : py_bytes)
  (lines : console) :
  Forall is_byte p -> length p = 16%nat ->
  UartInterfaceLoopback.script_with E (Py.hex p) lines
  = match UartInterfaceLoopback.main E p lines start with
    | (Raise e, _, w) => (Raise e, w)
    | (Ok output_bytes, _, w) =>
        (Ok tt,
         report output_bytes
           (if list_eq_dec Z.eq_dec output_bytes p
            then lit "SUCCES" else lit "FAIL") w)
    end.
Proof.
  intros Hp Hlen.
  rewrite (script_with_accepted E (Py.hex p) p lines).
  - destruct (UartInterfaceLoopback.main E p lines start)
      as [[[out|e] ls] w]; [|reflexivity].
    now rewrite verdict_hex.
  - rewrite hex_length, Hlen. reflexivity.
  - now apply fromhex_hex.
Qed.

(** X12 on the bench: sixteen bytes 255 through a loop-back plug. *)
Lemma self_test_compares_with_its_payload_witness :
  let p := repeat 255 16 in
  printed (lit "SUCCES")
    (trace (snd (UartInterfaceLoopback.script_with one_port (Py.hex p) [])))
  = true /\
  UartInterfaceLoopback.script_with one_port (Py.hex p) []
  = match UartInterfaceLoopback.main one_port p [] start with
    | (Raise e, _, w) => (Raise e, w)
    | (Ok output_bytes, _, w) =>
        (Ok tt,
         report output_bytes
           (if list_eq_dec Z.eq_dec output_bytes p
            then lit "SUCCES" else lit "FAIL") w)
    end.
Proof.
  cbv zeta. split; [vm_compute; reflexivity|].
  apply (self_test_compares_with_its_payload one_port (repeat 255 16) []).
  - repeat (apply Forall_cons; [unfold is_byte; lia|]). apply Forall_nil.
  - reflexivity.
Defined.

(** X13.  A literal of thirty-two characters that [bytes.fromhex] accepts
    and that holds an upper-case digit passes both checks and is sent, but
    the test cannot pass: whatever is read back, the word printed last is
    FAIL, because the comparison is with the lower-case form. *)
Theorem self_test_fails_on_an_upper_case_literal (E : env)
  (literal : py_str) (p : py_bytes) (lines : console) :
  length literal = 32%nat -> Py.fromhex literal = Ok p ->
  Exists upper_hex literal ->
  UartInterfaceLoopback.script_with E literal lines
  = match UartInterfaceLoopback.main E p lines start with
    | (Raise e, _, w) => (Raise e, w)
    | (Ok output_bytes, _, w) =>
        (Ok tt, report output_bytes (lit "FAIL") w)
    end.
Proof.
  intros Hlen Hhex Hup.
  rewrite (script_with_accepted E literal p lines Hlen Hhex).
  destruct (UartInterfaceLoopback.main E p lines start)
    as [[[out|e] ls] w]; [|reflexivity].
  now rewrite verdict_upper.
Qed.

(** X13 on the bench: the payload of the script written with [A] to [F];
    the loop-back plug returns it byte for byte, and the test fails. *)
Lemma self_test_fails_on_an_upper_case_literal_witness :
  let literal := lit "000102030405060708090A0B0C0D0E0F" in
  fst (UartInterfaceLoopback.main one_port payload [] start)
  = (Ok payload, []) /\
  UartInterfaceLoopback.script_with one_port literal []
  = match UartInterfaceLoopback.main one_port payload [] start with
    | (Raise e, _, w) => (Raise e, w)
    | (Ok output_bytes, _, w) =>
        (Ok tt, report output_bytes (lit "FAIL") w)
    end.
Proof.
  cbv zeta. split; [vm_compute; reflexivity|].
  apply (self_test_fails_on_an_upper_case_literal one_port
           (lit "000102030405060708090A0B0C0D0E0F") payload []).
  - reflexivity.
  - reflexivity.
  - apply Exists_exists. exists 65. split; [simpl; tauto|].
    unfold upper_hex. lia.
Defined.

(** X14.  The session decodes chunk by chunk.  When the text has a
    character of more than one byte whose first byte is the sixteenth of a
    chunk, the round ends in [UnicodeDecodeError] and no text is returned,
    even when the device returns every frame exactly as it was meant. *)
Theorem a_character_across_two_chunks_is_lost (E : env) (port : py_str)
  (baudrate : Z) (before after : py_str) (c : Z) (m : nat)
  (input_bytes : py_bytes) (w : world) :
  (forall t chunk,
     (1 <= length chunk <= 16)%nat ->
     device E (at_read_back port baudrate t chunk) = padded_frame chunk) ->
  Forall is_ascii before -> length before = (15 + 16 * m)%nat ->
  ~ is_ascii c ->
  Py.encode (before ++ c :: after) = Ok input_bytes ->
  fst (session_round E port baudrate (before ++ c :: after) w)
  = Raise UnicodeDecodeError.
Proof.
  intros Hdev Hascii Hlen Hc Henc.
  destruct (split_character_chunk before after c m input_bytes
              Hascii Hlen Hc Henc) as (chunks & Hdiv & Hl & Hbad).
  destruct (session_round_answers E port baudrate _ input_bytes w Henc)
    as (chunks' & answers & w' & Hdiv' & Hans & ->).
  rewrite Hdiv in Hdiv'. injection Hdiv' as <-.
  rewrite (answers_of_an_echo E port baudrate chunks answers Hdev Hl Hans).
  now rewrite reconstruct_undecodable.
Qed.

(** X14 on the bench: fifteen ASCII characters, then U+00E9. *)
Lemma a_character_across_two_chunks_is_lost_witness :
  Py.encode (lit "0123456789abcde" ++ [233])
  = Ok (lit "0123456789abcde" ++ [195; 169]) /\
  fst (session_round echo_bench ttyUSB0 9600
         (lit "0123456789abcde" ++ [233]) start)
  = Raise UnicodeDecodeError.
Proof.
  split; [reflexivity|].
  apply (a_character_across_two_chunks_is_lost echo_bench ttyUSB0 9600
           (lit "0123456789abcde") [] 233 0
           (lit "0123456789abcde" ++ [195; 169]) start).
  - intros t chunk Hlen. now apply frame_echo_answers.
  - apply Forall_forall. intros x Hx. simpl in Hx. unfold is_ascii. lia.
  - reflexivity.
  - unfold is_ascii. lia.
  - reflexivity.
Defined.

(** X15.  The serial traffic of one round of the session, for a text that
    encodes: for each chunk of sixteen bytes of the encoded text, in
    order, one connection that writes the frame and a second one that
    reads sixteen bytes back, and nothing else; what is read is what the
    device answers at that point.  An empty text makes no traffic. *)
Theorem session_round_serial_traffic (E : env) (port : py_str)
  (baudrate : Z) (input_text : py_str) (input_bytes : py_bytes) (w : world) :
  Py.encode input_text = Ok input_bytes ->
  let traffic :=
    serial_events
      (added w (snd (session_round E port baudrate input_text w))) in
  (exists input_chunks answers,
     divide_chunks input_bytes 16 = Ok input_chunks /\
     Forall2 (answers_to E port baudrate) input_chunks answers /\
     traffic
     = flat_map (fun ca => transfer_events port baudrate (fst ca) (snd ca))
         (combine input_chunks answers)) /\
  (input_text = [] -> traffic = []).
Proof.
  intros Henc. cbv zeta.
  destruct (session_round_traffic E port baudrate input_text input_bytes w
              Henc) as (chunks & answers & evs & Hdiv & Hans & -> & Hser).
  rewrite added_emits. split.
  - exists chunks, answers. auto.
  - intros ->. injection Henc as <-.
    assert (Hnil : divide_chunks [] 16 = Ok []) by reflexivity.
    rewrite Hnil in Hdiv. injection Hdiv as <-. exact Hser.
Qed.

(** X15 on the bench: two characters make one chunk and two
    connections. *)
Lemma session_round_serial_traffic_witness :
  let traffic :=
    serial_events
      (added start
         (snd (session_round echo_bench ttyUSB0 9600 (lit "hi") start))) in
  traffic
  = transfer_events ttyUSB0 9600 (lit "hi") (padded_frame (lit "hi")) /\
  (exists input_chunks answers,
     divide_chunks (lit "hi") 16 = Ok input_chunks /\
     Forall2 (answers_to echo_bench ttyUSB0 9600) input_chunks answers /\
     traffic
     = flat_map (fun ca => transfer_events ttyUSB0 9600 (fst ca) (snd ca))
         (combine input_chunks answers)) /\
  (lit "hi" = [] -> traffic = []).
Proof.
  cbv zeta. split; [vm_compute; reflexivity|].
  apply (session_round_serial_traffic echo_bench ttyUSB0 9600 (lit "hi")
           (lit "hi") start).
  reflexivity.
Defined.
